(** * A shallow embedding of the document chatbot (main.py and app.py)

    main.py is the FastAPI backend: the upload and search handlers over
    a document store directory and a vector index.
    app.py is the Streamlit client: authentication against a flat user
    store, chat messages and named chat sessions.

    Third-party collaborators (the operating system, the loaders, the
    embedding model, the vector database, the language model chain and
    the hash function) are not part of the repository.  Their outcomes
    are taken as oracles, so that every statement about a handler holds
    for all behaviours of these collaborators.  Calls to [print] and to
    [traceback.print_exc] only write to the console and are left out. *)

From Stdlib Require Import Ascii String.
From Stdlib.Strings Require Import Byte.
From stdpp Require Import base gmap strings list fin_maps pretty.

Open Scope string_scope.
Open Scope list_scope.
Open Scope nat_scope.

(** ** Python values used by both programs *)

(** An exception caught by [except Exception as e]; [str_e] is [str(e)]. *)
Record PyException := Exception { str_e : string }.

(** JSON values as they occur in the response bodies. *)
Inductive Json :=
| JString (s : string)
| JArray (items : list string).

(** A response: a status code and a JSON object, keys in source order. *)
Record Response := mkResponse {
  status_code : nat;
  content : list (string * Json)
}.

(** [dict.get(key)] on a response body. *)
Fixpoint body_get (key : string) (fields : list (string * Json)) : option Json :=
  match fields with
  | [] => None
  | (k, v) :: rest => if String.eqb k key then Some v else body_get key rest
  end.

Definition has_key (key : string) (r : Response) : bool :=
  match body_get key (content r) with Some _ => true | None => false end.

(** ** A state and exception monad

    A computation runs on a state [S]; it returns a value or raises an
    exception of type [E], and the state reached so far is kept in both
    cases, as in Python. *)

Definition M (E S A : Type) : Type := S → (E + A) * S.

Definition ret {E S A} (a : A) : M E S A := fun s => (inr a, s).

Definition raise {E S A} (e : E) : M E S A := fun s => (inl e, s).

Definition bind {E S A B} (m : M E S A) (k : A → M E S B) : M E S B :=
  fun s =>
    match m s with
    | (inr a, s') => k a s'
    | (inl e, s') => (inl e, s')
    end.

(** [try: body  except Exception as e: handler e]. *)
Definition try_except {E S A} (body : M E S A) (handler : E → M E S A) : M E S A :=
  fun s =>
    match body s with
    | (inr a, s') => (inr a, s')
    | (inl e, s') => handler e s'
    end.

Definition get_state {E S} : M E S S := fun s => (inr s, s).

Definition modify {E S} (f : S → S) : M E S unit := fun s => (inr tt, f s).

(** An oracle outcome turned into a computation. *)
Definition lift {E S A} (r : E + A) : M E S A :=
  match r with inl e => raise e | inr a => ret a end.

(** The monad operations in stdpp's notation: [x ← m; k] and [m;; k]. *)
#[export] Instance M_ret {E S} : MRet (M E S) := fun A => ret.
#[export] Instance M_bind {E S} : MBind (M E S) := fun A B k m => bind m k.

(** ** Strings and paths *)

(** [s.endswith(suffix)]. *)
Definition endswith (s suffix : string) : bool :=
  let n := String.length s in
  let m := String.length suffix in
  if Nat.leb m n then String.eqb (String.substring (n - m) m s) suffix else false.

(** [s.startswith(prefix)]. *)
Definition startswith (s prefix : string) : bool := String.prefix prefix s.

(** [os.path.join(a, b)] on a POSIX system, for two components. *)
Definition os_path_join (a b : string) : string :=
  if startswith b "/" then b
  else if String.eqb a EmptyString || endswith a "/" then a +:+ b
  else a +:+ "/" +:+ b.

(** ** The backend, main.py *)

Module Backend.

Definition UPLOAD_FOLDER : string := "./document_store".

(** The arguments of [RecursiveCharacterTextSplitter] at line 113. *)
Definition chunk_size : nat := 500.
Definition chunk_overlap : nat := 50.

(** A langchain document: the text and the path it was loaded from. *)
Record Document := mkDocument {
  page_content : list ascii;
  source : string
}.

(** The state the handlers act on: the files on disk, by path, and the
    documents held by the vector index, in insertion order. *)
Record World := mkWorld {
  files : gmap string (list byte);
  vector_db : list Document
}.

Definition set_files (f : gmap string (list byte) → gmap string (list byte))
    (w : World) : World :=
  mkWorld (f (files w)) (vector_db w).

Definition set_vector_db (f : list Document → list Document) (w : World) : World :=
  mkWorld (files w) (f (vector_db w)).

(** The multipart field [file]. *)
Record UploadFile := mkUploadFile {
  filename : string;
  file_bytes : list byte
}.

(** The collaborators of one request.  A partial failure is described
    by the amount of work done before the exception. *)
Record Services := mkServices {
  (** [open(file_path, "wb")] raising *)
  open_error : string → option PyException;
  (** [file.read()] or [buffer.write] raising once [n] bytes are stored *)
  write_error : string → list byte → option (nat * PyException);
  (** the decoding done by [TextLoader.load] *)
  decode_text : list byte → PyException + list ascii;
  (** the page texts extracted by [PyPDFLoader.load] *)
  pdf_pages : list byte → PyException + list (list ascii);
  (** [text_splitter.split_documents] *)
  split_documents : list Document → PyException + list Document;
  (** [vector_db.add_documents] raising once [n] chunks are inserted *)
  add_documents_error : list Document → option (nat * PyException);
  (** [vector_db.get().persist()] raising *)
  persist_error : option PyException;
  (** [qa_chain.invoke({"query": query})], a dict *)
  qa_invoke : list Document → string → PyException + list (string * string);
  (** [vector_db.similarity_search(query)] *)
  similarity_search : list Document → string → PyException + list Document;
  (** [qa_chain.retriever.get_relevant_documents(query)] *)
  get_relevant_documents : list Document → string → PyException + list Document;
  (** [qa_chain.run(query)] *)
  qa_run : list Document → string → PyException + string
}.

Section Handlers.

Variable svc : Services.

(** Lines 97 and 98: [with open(file_path, "wb") as buffer:
    buffer.write(await file.read())].  Opening truncates the file. *)
Definition save_file (file_path : string) (data : list byte) : M PyException World unit :=
  match open_error svc file_path with
  | Some e => raise e
  | None =>
      modify (set_files (insert file_path []));;
      match write_error svc file_path data with
      | Some (n, e) =>
          modify (set_files (insert file_path (take n data))) ;; raise e
      | None => modify (set_files (insert file_path data))
      end
  end.

(** The two loaders; both read the file back from disk. *)
Inductive Loader :=
| PyPDFLoader (file_path : string)
| TextLoader (file_path : string).

(** Reading a file that does not exist raises [FileNotFoundError]. *)
Definition read_file (file_path : string) : M PyException World (list byte) :=
  w ← get_state;
  match files w !! file_path with
  | Some data => ret data
  | None => raise (Exception ("No such file or directory: " +:+ file_path))
  end.

Definition load (loader : Loader) : M PyException World (list Document) :=
  match loader with
  | TextLoader file_path =>
      data ← read_file file_path;
      text ← lift (decode_text svc data);
      ret [mkDocument text file_path]
  | PyPDFLoader file_path =>
      data ← read_file file_path;
      pages ← lift (pdf_pages svc data);
      ret (map (fun text => mkDocument text file_path) pages)
  end.

(** Line 117, [vector_db.add_documents(chunks)]. *)
Definition add_documents (chunks : list Document) : M PyException World unit :=
  match add_documents_error svc chunks with
  | Some (n, e) =>
      modify (set_vector_db (fun db => db ++ take n chunks)) ;; raise e
  | None => modify (set_vector_db (fun db => db ++ chunks))
  end.

(** Line 118, [vector_db.get().persist()]. *)
Definition persist : M PyException World unit :=
  match persist_error svc with
  | Some e => raise e
  | None => ret tt
  end.

(** The loader chosen at lines 101 to 105; [None] is the [else] branch. *)
Definition choose_loader (name file_path : string) : option Loader :=
  if endswith name ".pdf" then Some (PyPDFLoader file_path)
  else if endswith name ".txt" then Some (TextLoader file_path)
  else None.

Definition unsupported_format : Response :=
  mkResponse 400
    [("error", JString "Unsupported file format. Upload a .pdf or .txt file.")].

Definition uploaded (name : string) : Response :=
  mkResponse 200
    [("message", JString "File uploaded and indexed successfully!");
     ("filename", JString name)].

Definition upload_failure (e : PyException) : Response :=
  mkResponse 500 [("error", JString ("File upload failed: " +:+ str_e e))].

(** Lines 95 to 120, the body of the [try]. *)
Definition upload_body (file : UploadFile) : M PyException World Response :=
  let file_path := os_path_join UPLOAD_FOLDER (filename file) in
  save_file file_path (file_bytes file);;
  match choose_loader (filename file) file_path with
  | None => ret unsupported_format
  | Some loader =>
      documents ← load loader;
      chunks ← lift (split_documents svc documents);
      add_documents chunks;;
      persist;;
      ret (uploaded (filename file))
  end.

(** Lines 92 to 125. *)
Definition upload_file (file : UploadFile) : M PyException World Response :=
  try_except (upload_body file) (fun e => ret (upload_failure e)).

(** [result['result']] on the dict returned by [invoke]. *)
Fixpoint dict_getitem (key : string) (d : list (string * string)) : PyException + string :=
  match d with
  | [] => inl (Exception ("'" +:+ key +:+ "'"))
  | (k, v) :: rest => if String.eqb k key then inr v else dict_getitem key rest
  end.

Definition chunk_texts (docs : list Document) : Json :=
  JArray (map (fun doc => string_of_list_ascii (page_content doc)) docs).

Definition search_result (retrieved_docs : list Document) (answer : string) : Response :=
  mkResponse 200
    [("retrieved_chunks", chunk_texts retrieved_docs); ("answer", JString answer)].

Definition search_failure (e : PyException) : Response :=
  mkResponse 500 [("error", JString ("Error processing your request: " +:+ str_e e))].

(** Lines 65 to 76, the body of the [try] of the first [search_query]. *)
Definition search_invoke_body (query : string) : M PyException World Response :=
  w ← get_state;
  result ← lift (qa_invoke svc (vector_db w) query);
  retrieved_docs ← lift (similarity_search svc (vector_db w) query);
  answer ← lift (dict_getitem "result" result);
  ret (search_result retrieved_docs answer).

(** Lines 62 to 80, the first definition of [search_query]. *)
Definition search_query_invoke (query : string) : M PyException World Response :=
  try_except (search_invoke_body query) (fun e => ret (search_failure e)).

(** Lines 132 to 139, the body of the [try] of the second [search_query]. *)
Definition search_run_body (query : string) : M PyException World Response :=
  w ← get_state;
  retrieved_docs ← lift (get_relevant_documents svc (vector_db w) query);
  result ← lift (qa_run svc (vector_db w) query);
  ret (search_result retrieved_docs result).

(** Lines 129 to 144, the second definition of [search_query]. *)
Definition search_query_run (query : string) : M PyException World Response :=
  try_except (search_run_body query) (fun e => ret (search_failure e)).

End Handlers.

(** *** The text splitter *)

Section Splitter.

Context {A : Type}.

(** Modelled from the spec: [RecursiveCharacterTextSplitter] is langchain
    code and main.py only constructs it with [chunk_size=500] and
    [chunk_overlap=50].  The spec, section 4.1 step 3: chunks of a fixed
    maximum length with a fixed overlap between consecutive chunks, in
    source order; a text that fits in one chunk is that chunk.  [start]
    is the offset of [rest] in the whole text, and each chunk is paired
    with its start offset. *)
Fixpoint windows (size stride fuel start : nat) (rest : list A) : list (nat * list A) :=
  match fuel with
  | 0 => [(start, take size rest)]
  | S fuel' =>
      if Nat.leb (length rest) size then [(start, rest)]
      else (start, take size rest)
             :: windows size stride fuel' (start + stride) (drop stride rest)
  end.

(** Modelled from the spec: the chunks of a text with their start offsets.
    The recursion moves [size - overlap] units ahead at a time, so the
    length of the text bounds the number of steps. *)
Definition split_with_offsets (size overlap : nat) (text : list A) : list (nat * list A) :=
  windows size (size - overlap) (length text) 0 text.

(** Modelled from the spec: [text_splitter.split_text]. *)
Definition split_text (size overlap : nat) (text : list A) : list (list A) :=
  map snd (split_with_offsets size overlap text).

End Splitter.

(** Modelled from the spec: [text_splitter.split_documents], the chunks of
    each document in turn, every chunk keeping the source of its
    document. *)
Definition split_documents_spec (documents : list Document) : list Document :=
  flat_map
    (fun doc =>
       map (fun chunk => mkDocument chunk (source doc))
           (split_text chunk_size chunk_overlap (page_content doc)))
    documents.

(** *** Vocabulary of the statements and sample inputs *)

(** Collaborators that never fail: text is decoded byte by byte, a PDF
    has no pages, the splitter passes documents through and the chain
    answers with the query. *)
Definition reliable : Services :=
  mkServices
    (fun _ => None) (fun _ _ => None)
    (fun data => inr (map ascii_of_byte data))
    (fun _ => inr [])
    (fun docs => inr docs)
    (fun _ => None) None
    (fun _ query => inr [("query", query); ("result", query)])
    (fun db _ => inr db)
    (fun db _ => inr db)
    (fun _ query => inr query).

(** As [reliable], but the directory part of a path does not exist:
    opening a path with a slash after the upload folder fails. *)
Definition missing_directory : Services :=
  mkServices
    (fun file_path =>
       if String.eqb file_path "./document_store/a/b.exe"
       then Some (Exception "[Errno 2] No such file or directory: './document_store/a/b.exe'")
       else None)
    (write_error reliable) (decode_text reliable) (pdf_pages reliable)
    (split_documents reliable) (add_documents_error reliable)
    (persist_error reliable) (qa_invoke reliable) (similarity_search reliable)
    (get_relevant_documents reliable) (qa_run reliable).

Definition empty_world : World := mkWorld ∅ [].

Definition notes_docx : UploadFile := mkUploadFile "notes.docx" [x68; x69].

(** An extension other than .pdf and .txt. *)
Definition supported (name : string) : bool :=
  endswith name ".pdf" || endswith name ".txt".

(** As [reliable], but no text can be decoded. *)
Definition undecodable : Services :=
  mkServices
    (open_error reliable) (write_error reliable)
    (fun _ => inl (Exception "'utf-8' codec can't decode byte 0xff"))
    (pdf_pages reliable) (split_documents reliable) (add_documents_error reliable)
    (persist_error reliable) (qa_invoke reliable) (similarity_search reliable)
    (get_relevant_documents reliable) (qa_run reliable).

(** As [reliable], but the embedding of the second chunk fails. *)
Definition embedding_fails : Services :=
  mkServices
    (open_error reliable) (write_error reliable) (decode_text reliable)
    (fun _ => inr [["p"; "1"]%char; ["p"; "2"]%char])
    (split_documents reliable)
    (fun _ => Some (1, Exception "embedding failed"))
    (persist_error reliable) (qa_invoke reliable) (similarity_search reliable)
    (get_relevant_documents reliable) (qa_run reliable).

(** As [reliable], but the index cannot be persisted. *)
Definition persist_fails : Services :=
  mkServices
    (open_error reliable) (write_error reliable) (decode_text reliable)
    (pdf_pages reliable) (split_documents reliable) (add_documents_error reliable)
    (Some (Exception "'dict' object has no attribute 'persist'"))
    (qa_invoke reliable) (similarity_search reliable)
    (get_relevant_documents reliable) (qa_run reliable).

(** As [reliable], but the chain answers without the key result. *)
Definition answer_without_result : Services :=
  mkServices
    (open_error reliable) (write_error reliable) (decode_text reliable)
    (pdf_pages reliable) (split_documents reliable) (add_documents_error reliable)
    (persist_error reliable)
    (fun _ query => inr [("query", query); ("output", query)])
    (similarity_search reliable) (get_relevant_documents reliable) (qa_run reliable).

(** The world once [data] is stored at [file_path]. *)
Definition stored (file_path : string) (data : list byte) (w : World) : World :=
  mkWorld (<[file_path := data]> (files w)) (vector_db w).

(** The save step of an upload raises nothing. *)
Definition saves (svc : Services) (file : UploadFile) : Prop :=
  open_error svc (os_path_join UPLOAD_FOLDER (filename file)) = None
  ∧ write_error svc (os_path_join UPLOAD_FOLDER (filename file)) (file_bytes file) = None.

End Backend.

(** ** The client, app.py *)

Module Frontend.

(** A chat message, [(sender, text)]. *)
Definition Message : Type := string * string.

(** What one run of the script renders: notices, headers and the
    warning shown to a visitor who is not logged in. *)
Inductive Rendered :=
| SidebarError (msg : string)
| SidebarSuccess (msg : string)
| SidebarWarning (msg : string)
| SidebarHeader (msg : string)
| Subheader (msg : string)
| Warning (msg : string).

(** The state of the client.  The first five fields are the keys of
    [st.session_state].  [messages] and the values of [chat_sessions]
    are references to list objects, which live in [heap]; [users_json]
    is the file users.json, [None] while it does not exist. *)
Record State := mkState {
  logged_in : bool;
  username : string;
  messages : nat;
  chat_sessions : gmap string nat;
  user_store : gmap string string;
  heap : gmap nat (list Message);
  users_json : option (gmap string string);
  rendered : list Rendered
}.

Definition set_logged_in (b : bool) (s : State) : State :=
  mkState b (username s) (messages s) (chat_sessions s) (user_store s)
          (heap s) (users_json s) (rendered s).

Definition set_username (u : string) (s : State) : State :=
  mkState (logged_in s) u (messages s) (chat_sessions s) (user_store s)
          (heap s) (users_json s) (rendered s).

Definition set_messages (l : nat) (s : State) : State :=
  mkState (logged_in s) (username s) l (chat_sessions s) (user_store s)
          (heap s) (users_json s) (rendered s).

Definition set_chat_sessions (c : gmap string nat) (s : State) : State :=
  mkState (logged_in s) (username s) (messages s) c (user_store s)
          (heap s) (users_json s) (rendered s).

Definition set_user_store (u : gmap string string) (s : State) : State :=
  mkState (logged_in s) (username s) (messages s) (chat_sessions s) u
          (heap s) (users_json s) (rendered s).

Definition set_heap (h : gmap nat (list Message)) (s : State) : State :=
  mkState (logged_in s) (username s) (messages s) (chat_sessions s) (user_store s)
          h (users_json s) (rendered s).

Definition set_users_json (f : option (gmap string string)) (s : State) : State :=
  mkState (logged_in s) (username s) (messages s) (chat_sessions s) (user_store s)
          (heap s) f (rendered s).

Definition set_rendered (r : list Rendered) (s : State) : State :=
  mkState (logged_in s) (username s) (messages s) (chat_sessions s) (user_store s)
          (heap s) (users_json s) r.

(** The items of the list object at reference [l]. *)
Definition deref (s : State) (l : nat) : list Message :=
  default [] (heap s !! l).

(** The current message sequence, [st.session_state["messages"]]. *)
Definition current_messages (s : State) : list Message := deref s (messages s).

(** The message sequence saved under a session name. *)
Definition saved_messages (s : State) (name : string) : option (list Message) :=
  deref s <$> chat_sessions s !! name.

(** How a run of the script stops early: an uncaught exception, or the
    rerun asked for by [st.experimental_rerun()]. *)
Inductive ScriptStop :=
| Uncaught (e : PyException)
| RerunRequested.

Abbreviation Script := (M ScriptStop State).

Definition uncaught {A} (r : PyException + A) : Script A :=
  match r with inl e => raise (Uncaught e) | inr a => ret a end.

Definition render (r : Rendered) : Script unit :=
  modify (fun s => set_rendered (rendered s ++ [r]) s).

(** [list(xs)]: a new list object with the items [xs]. *)
Definition new_list (xs : list Message) : Script nat :=
  s ← get_state;
  let l := fresh (dom (heap s)) in
  modify (set_heap (<[l := xs]> (heap s)));;
  ret l.

(** [xs.append(x)] on the list object at [l]. *)
Definition list_append (l : nat) (x : Message) : Script unit :=
  modify (fun s => set_heap (<[l := deref s l ++ [x]]> (heap s)) s).

(** The widgets as the browser sends them for one run. *)
Inductive AuthChoice := Login | SignUp.

Inductive Button :=
| SignUpButton | LoginButton | LogoutButton | SendButton
| SaveChatButton | ClearChatButton.

Record Widgets := mkWidgets {
  auth_choice : AuthChoice;
  username_input : string;
  password_input : string;
  (** the button whose click started this run, if any *)
  clicked : option Button;
  uploaded_file : option Backend.UploadFile;
  user_input : string;
  selected_session : string
}.

(** What lies outside the client during one run: the three HTTP calls
    and the write to users.json. *)
Record Outside := mkOutside {
  post_upload : Backend.UploadFile → PyException + Response;
  get_files : PyException + Response;
  get_search : string → PyException + Response;
  users_json_error : option PyException
}.

Definition is_clicked (w : Widgets) (b : Button) : bool :=
  match clicked w, b with
  | Some SignUpButton, SignUpButton | Some LoginButton, LoginButton
  | Some LogoutButton, LogoutButton | Some SendButton, SendButton
  | Some SaveChatButton, SaveChatButton | Some ClearChatButton, ClearChatButton => true
  | _, _ => false
  end.

(** Python truth value of a string. *)
Definition truthy (s : string) : bool := negb (String.eqb s EmptyString).

Section Script.

(** [hashlib.sha256(password.encode()).hexdigest()]. *)
Variable sha256_hexdigest : string → string.

Variable out : Outside.

Definition hash_password (password : string) : string := sha256_hexdigest password.

(** Lines 14 to 19. *)
Definition load_users (file : option (gmap string string)) : gmap string string :=
  match file with
  | Some users => users
  | None => ∅
  end.

(** Lines 22 to 24.  A write that raises is taken to raise when the
    file is opened, which leaves the file as it is; what is left of the
    file when [json.dump] raises after the truncating open is not
    modelled, and no statement below says what users.json holds after a
    failed write. *)
Definition save_users (users : gmap string string) : Script unit :=
  match users_json_error out with
  | Some e => raise (Uncaught e)
  | None => modify (set_users_json (Some users))
  end.

(** Lines 27 to 36 on a new browser session. *)
Definition new_session (file : option (gmap string string)) : State :=
  mkState false EmptyString 0 ∅ (load_users file) {[ 0 := [] ]} file [].

(** Lines 50 to 62, the Sign Up branch. *)
Definition sign_up (w : Widgets) (hashed_password : string) : Script unit :=
  if is_clicked w SignUpButton then
    if truthy (username_input w) && truthy (password_input w) then
      s ← get_state;
      match user_store s !! username_input w with
      | Some _ => render (SidebarError "⚠️ Username already exists!")
      | None =>
          modify (fun s => set_user_store (<[username_input w := hashed_password]> (user_store s)) s);;
          s ← get_state;
          save_users (user_store s);;
          modify (set_logged_in true);;
          modify (set_username (username_input w));;
          render (SidebarSuccess "🎉 Account created! Logged in.")
      end
    else render (SidebarError "⚠️ Please enter a username and password.")
  else ret tt.

(** Lines 63 to 70, the Login branch. *)
Definition login (w : Widgets) (hashed_password : string) : Script unit :=
  if is_clicked w LoginButton then
    s ← get_state;
    match user_store s !! username_input w with
    | Some stored =>
        if String.eqb stored hashed_password then
          modify (set_logged_in true);;
          modify (set_username (username_input w));;
          render (SidebarSuccess "✅ Logged in successfully!")
        else render (SidebarError "❌ Invalid credentials.")
    | None => render (SidebarError "❌ Invalid credentials.")
    end
  else ret tt.

(** Lines 71 to 78, the Logout button. *)
Definition logout (w : Widgets) : Script unit :=
  s ← get_state;
  render (SidebarSuccess ("👋 Welcome, " +:+ username s +:+ "!"));;
  if is_clicked w LogoutButton then
    modify (set_logged_in false);;
    modify (set_username EmptyString);;
    l ← new_list [];
    modify (set_messages l);;
    render (SidebarWarning "You have logged out.");;
    raise RerunRequested
  else ret tt.

(** Lines 43 to 78. *)
Definition authentication (w : Widgets) : Script unit :=
  render (SidebarHeader "🔑 User Authentication");;
  s ← get_state;
  if negb (logged_in s) then
    let hashed_password := hash_password (password_input w) in
    match auth_choice w with
    | SignUp => sign_up w hashed_password
    | Login => login w hashed_password
    end
  else logout w.

(** Lines 82 to 106: the upload and the file list. *)
Definition upload_and_list (w : Widgets) : Script unit :=
  render (SidebarHeader "📁 Upload Documents");;
  match uploaded_file w with
  | Some file =>
      response ← uncaught (post_upload out file);
      if Nat.eqb (status_code response) 200
      then render (SidebarSuccess "✅ File uploaded successfully!")
      else render (SidebarError "❌ Upload failed!")
  | None => ret tt
  end;;
  render (SidebarHeader "📄 Uploaded Files");;
  _ ← uncaught (get_files out);
  ret tt.

(** Line 116; the backend answers with a string under the key answer. *)
Definition answer_of (response : Response) : string :=
  if Nat.eqb (status_code response) 200 then
    match body_get "answer" (content response) with
    | Some (JString answer) => answer
    | _ => "❌ Error fetching response"
    end
  else "❌ Error fetching response".

(** Lines 108 to 117, the Send button. *)
Definition send (w : Widgets) : Script unit :=
  render (Subheader "💬 Chat with Documents");;
  if is_clicked w SendButton && truthy (user_input w) then
    s ← get_state;
    list_append (messages s) ("🧑 You", user_input w);;
    response ← uncaught (get_search out (user_input w));
    s ← get_state;
    list_append (messages s) ("🤖 Bot", answer_of response)
  else ret tt.

(** Lines 125 to 128, the Save Chat button. *)
Definition save_chat (w : Widgets) : Script unit :=
  if is_clicked w SaveChatButton then
    s ← get_state;
    let session_name := "Session " +:+ pretty (size (chat_sessions s) + 1) in
    l ← new_list (deref s (messages s));
    modify (fun s => set_chat_sessions (<[session_name := l]> (chat_sessions s)) s);;
    render (SidebarSuccess ("Chat saved as: " +:+ session_name))
  else ret tt.

(** Lines 130 to 134, the Load Previous Chat select box. *)
Definition load_chat (w : Widgets) : Script unit :=
  s ← get_state;
  if truthy (selected_session w) then
    match chat_sessions s !! selected_session w with
    | Some saved =>
        l ← new_list (deref s saved);
        modify (set_messages l);;
        render (SidebarSuccess ("Loaded: " +:+ selected_session w))
    | None => ret tt
    end
  else ret tt.

(** Lines 136 to 138, the Clear Chat button. *)
Definition clear_chat (w : Widgets) : Script unit :=
  if is_clicked w ClearChatButton then
    l ← new_list [];
    modify (set_messages l);;
    render (SidebarWarning "Chat history cleared!")
  else ret tt.

(** Lines 82 to 151, what a logged-in user gets. *)
Definition chat_ui (w : Widgets) : Script unit :=
  upload_and_list w;;
  send w;;
  render (SidebarHeader "💾 Chat Sessions");;
  save_chat w;;
  load_chat w;;
  clear_chat w.

(** One run of the script, lines 42 to 153.  What was rendered by the
    previous run is gone. *)
Definition script (w : Widgets) : Script unit :=
  modify (set_rendered []);;
  authentication w;;
  s ← get_state;
  if logged_in s then chat_ui w
  else render (Warning "🔒 Please log in to access the chatbot.").

(** The state a run leaves behind, however it stops. *)
Definition run (w : Widgets) (s : State) : State := snd (script w s).

(** How the run stopped. *)
Definition stop (w : Widgets) (s : State) : ScriptStop + unit := fst (script w s).

End Script.

(** *** Vocabulary of the statements and sample inputs *)

(** A stand-in for the hash function. *)
Definition toy_hash (password : string) : string := "sha256:" +:+ password.

(** A backend that answers every call. *)
Definition online : Outside :=
  mkOutside
    (fun file => inr (Backend.uploaded (Backend.filename file)))
    (inr (mkResponse 200 [("uploaded_files", JArray [])]))
    (fun query => inr (Backend.search_result [] ("about " +:+ query)))
    None.

Definition idle : Widgets := mkWidgets Login EmptyString EmptyString None None EmptyString EmptyString.

(** *** The transitions of a run

    Every change a run makes to the message lists goes through one of
    four transitions: rendering, appending to the current list, making
    a new current list, and saving a new list under a session name.
    [saving] tells whether the last one may occur. *)
Inductive chat_step (saving : bool) : State → State → Prop :=
| chat_render s r :
    chat_step saving s (set_rendered (rendered s ++ [r]) s)
| chat_append s x :
    chat_step saving s
      (set_heap (<[messages s := deref s (messages s) ++ [x]]> (heap s)) s)
| chat_new_messages s xs :
    chat_step saving s
      (set_messages (fresh (dom (heap s)))
         (set_heap (<[fresh (dom (heap s)) := xs]> (heap s)) s))
| chat_save s name xs :
    saving = true →
    chat_step saving s
      (set_chat_sessions (<[name := fresh (dom (heap s))]> (chat_sessions s))
         (set_heap (<[fresh (dom (heap s)) := xs]> (heap s)) s)).

(** The authentication block also changes the other keys of the session
    and the user file, and a run starts by dropping what was rendered. *)
Inductive step (saving : bool) : State → State → Prop :=
| step_chat s s' : chat_step saving s s' → step saving s s'
| step_session s s' :
    heap s' = heap s → messages s' = messages s →
    chat_sessions s' = chat_sessions s →
    step saving s s'.

(** A computation that moves along [R], however it ends. *)
Definition moves (R : State → State → Prop) {A} (m : Script A) : Prop :=
  ∀ s, rtc R s (snd (m s)).

(** The chat transitions leave the authentication state and the user
    store alone, and only add to what is rendered. *)
Definition same_session (s s' : State) : Prop :=
  logged_in s' = logged_in s ∧ username s' = username s
  ∧ user_store s' = user_store s ∧ users_json s' = users_json s
  ∧ rendered s `prefix_of` rendered s'.

(** References are allocated, and no saved list is the current one. *)
Definition wf (s : State) : Prop :=
  messages s ∈ dom (heap s)
  ∧ ∀ name l, chat_sessions s !! name = Some l →
              l ∈ dom (heap s) ∧ l ≠ messages s.

(** The session [name] refers to a list object with the items [saved],
    which is not the current list. *)
Definition snapshot (name : string) (l : nat) (saved : list Message) (s : State) : Prop :=
  chat_sessions s !! name = Some l ∧ heap s !! l = Some saved ∧ messages s ≠ l.

Abbreviation authentication_header := (SidebarHeader "🔑 User Authentication").
Abbreviation please_log_in := (Warning "🔒 Please log in to access the chatbot.").
Abbreviation upload_header := (SidebarHeader "📁 Upload Documents").
Abbreviation chat_header := (Subheader "💬 Chat with Documents").

(** What a logout leaves of the state [s]. *)
Definition logged_out_of (s s' : State) : Prop :=
  logged_in s' = false ∧ username s' = EmptyString ∧ current_messages s' = []
  ∧ chat_sessions s' = chat_sessions s
  ∧ user_store s' = user_store s ∧ users_json s' = users_json s
  ∧ (wf s → ∀ name, saved_messages s' name = saved_messages s name).

(** The HTTP calls made before the chat section is rendered answer. *)
Definition backend_answers (out : Outside) (w : Widgets) : Prop :=
  (∀ file, uploaded_file w = Some file → ∃ r, post_upload out file = inr r)
  ∧ ∃ r, get_files out = inr r.

(** A transition that only renders. *)
Definition rendering (s s' : State) : Prop := ∃ r, s' = set_rendered r s.

(** The user store in memory is what users.json holds. *)
Definition agree (s : State) : Prop := load_users (users_json s) = user_store s.

(** The saved sessions are named Session 1 to Session n. *)
Definition sessions_named (s : State) : Prop :=
  ∀ name, is_Some (chat_sessions s !! name)
          ↔ ∃ k, 1 ≤ k ≤ size (chat_sessions s) ∧ name = "Session " +:+ pretty k.

(** A transition that keeps the property [I]. *)
Definition keeps (I : State → Prop) (s s' : State) : Prop := I s → I s'.

(** A transition that keeps every account with its hash. *)
Definition store_grows (s s' : State) : Prop := user_store s ⊆ user_store s'.

(** The state of one browser session after a sequence of its runs, each
    with its own outside world.  Other sessions share users.json only;
    what they write to it is not part of this state. *)
Definition runs (sha : string → string) (rs : list (Outside * Widgets)) (s : State) : State :=
  foldl (fun s r => run sha r.1 r.2 s) s rs.

(** As [online], but users.json cannot be written. *)
Definition read_only_disk : Outside :=
  mkOutside (post_upload online) (get_files online) (get_search online)
    (Some (Exception "[Errno 13] Permission denied: 'users.json'")).

(** As [online], but the search request cannot be sent. *)
Definition search_down : Outside :=
  mkOutside (post_upload online) (get_files online)
    (fun _ => inl (Exception "Connection refused"))
    None.

Definition sign_up_ann : Widgets :=
  mkWidgets SignUp "ann" "pw" (Some SignUpButton) None EmptyString EmptyString.

Definition ask (question : string) : Widgets :=
  mkWidgets Login EmptyString EmptyString (Some SendButton) None question EmptyString.

Definition click (b : Button) : Widgets := mkWidgets Login EmptyString EmptyString (Some b) None EmptyString EmptyString.

Definition select_session (name : string) : Widgets :=
  mkWidgets Login EmptyString EmptyString None None EmptyString name.

Definition log_in (user password : string) : Widgets :=
  mkWidgets Login user password (Some LoginButton) None EmptyString EmptyString.

(** Ann has an account and is not logged in. *)
Definition registered : State := new_session (Some {[ "ann" := toy_hash "pw" ]}).

(** Ann has signed up and asked one question. *)
Definition ann_chatting : State :=
  run toy_hash online (ask "hello") (run toy_hash online sign_up_ann (new_session None)).

End Frontend.

(** * Properties of the backend *)

Module BackendProofs.

Import Backend.

(** *** The model on small inputs *)

Example endswith_pdf : endswith "report.pdf" ".pdf" = true.
Proof. reflexivity. Qed.

Example endswith_is_case_sensitive : endswith "REPORT.PDF" ".pdf" = false.
Proof. reflexivity. Qed.

Example endswith_needs_the_dot : endswith "pdf" ".pdf" = false.
Proof. reflexivity. Qed.

Example join_relative : os_path_join UPLOAD_FOLDER "a.txt" = "./document_store/a.txt".
Proof. reflexivity. Qed.

Example join_absolute : os_path_join UPLOAD_FOLDER "/tmp/a.txt" = "/tmp/a.txt".
Proof. reflexivity. Qed.

Example upload_txt :
  upload_file reliable (mkUploadFile "a.txt" [x68; x69]) empty_world
  = (inr (uploaded "a.txt"),
     mkWorld {[ "./document_store/a.txt" := [x68; x69] ]}
       [mkDocument ["h"; "i"]%char "./document_store/a.txt"]).
Proof. vm_compute. reflexivity. Qed.

Example split_1000 :
  map (fun chunk => (chunk.1, length chunk.2))
      (split_with_offsets chunk_size chunk_overlap (replicate 1000 "a"%char))
  = [(0, 500); (450, 500); (900, 100)].
Proof. vm_compute. reflexivity. Qed.

(** Unfolds the monad operations so that a computation becomes a term
    over the oracles. *)
Ltac unfold_monad :=
  unfold mbind, M_bind, mret, M_ret, bind, try_except, lift, modify,
    get_state, raise, ret in *.

Lemma choose_loader_supported name file_path :
  supported name = true ↔ is_Some (choose_loader name file_path).
Proof.
  unfold supported, choose_loader.
  destruct (endswith name ".pdf"), (endswith name ".txt"); simpl;
    split; intros H; try done; eauto; by destruct H.
Qed.

Lemma choose_loader_unsupported name file_path :
  supported name = false ↔ choose_loader name file_path = None.
Proof.
  unfold supported, choose_loader.
  destruct (endswith name ".pdf"), (endswith name ".txt"); simpl; split; done.
Qed.

(** Saving touches the file at [file_path] only and never the index. *)
Lemma save_file_spec svc file_path data w :
  ∃ r stored,
    save_file svc file_path data w
    = (r, mkWorld (match stored with
                   | Some bytes => <[file_path := bytes]> (files w)
                   | None => files w
                   end) (vector_db w))
    ∧ (is_Some (open_error svc file_path) → stored = None ∧ ∃ e, r = inl e)
    ∧ (open_error svc file_path = None → write_error svc file_path data = None →
       stored = Some data ∧ r = inr tt).
Proof.
  unfold save_file.
  destruct (open_error svc file_path) as [e|] eqn:Hopen.
  - exists (inl e), None. unfold_monad. destruct w. simpl.
    split; [done|]. split; [eauto|done].
  - destruct (write_error svc file_path data) as [[n e]|] eqn:Hwrite.
    + exists (inl e), (Some (take n data)). unfold_monad.
      unfold set_files. simpl. rewrite insert_insert_eq.
      split; [done|]. split; [by intros [? ?]|done].
    + exists (inr tt), (Some data). unfold_monad.
      unfold set_files. simpl. rewrite insert_insert_eq.
      split; [done|]. split; [by intros [? ?]|done].
Qed.

(** The steps after saving leave the files alone. *)
Lemma read_file_state file_path w :
  snd (read_file file_path w) = w.
Proof.
  unfold read_file. unfold_monad. by destruct (files w !! file_path).
Qed.

Lemma load_state svc loader w : snd (load svc loader w) = w.
Proof.
  destruct loader as [file_path|file_path]; unfold load, read_file; unfold_monad;
    destruct (files w !! file_path); try done.
  - by destruct (pdf_pages svc _).
  - by destruct (decode_text svc _).
Qed.

Lemma add_documents_files svc chunks w :
  files (snd (add_documents svc chunks w)) = files w.
Proof.
  unfold add_documents. by destruct (add_documents_error svc chunks) as [[n e]|].
Qed.

Lemma persist_state svc w : snd (persist svc w) = w.
Proof. unfold persist. by destruct (persist_error svc). Qed.

(** Only the save step of an upload writes files. *)
Lemma upload_body_files svc file w :
  files (snd (upload_body svc file w))
  = files (snd (save_file svc (os_path_join UPLOAD_FOLDER (filename file))
                          (file_bytes file) w)).
Proof.
  unfold upload_body.
  set (file_path := os_path_join UPLOAD_FOLDER (filename file)).
  unfold mbind at 1, M_bind at 1, bind at 1.
  destruct (save_file svc file_path (file_bytes file) w) as [[e|[]] w1]; [done|].
  destruct (choose_loader (filename file) file_path) as [loader|]; [|done].
  unfold mbind at 1, M_bind at 1, bind at 1.
  pose proof (load_state svc loader w1) as Hload.
  destruct (load svc loader w1) as [[e|documents] w2]; simpl in Hload; subst w2; [done|].
  unfold mbind at 1, M_bind at 1, bind at 1.
  destruct (split_documents svc documents) as [e|chunks]; [done|]. simpl.
  unfold mbind at 1, M_bind at 1, bind at 1.
  pose proof (add_documents_files svc chunks w1) as Hadd.
  destruct (add_documents svc chunks w1) as [[e|[]] w3]; simpl in Hadd; [done|].
  unfold mbind at 1, M_bind at 1, bind at 1.
  pose proof (persist_state svc w3) as Hpersist.
  destruct (persist svc w3) as [[e|[]] w4]; simpl in Hpersist; by subst w4.
Qed.

Lemma upload_file_files svc file w :
  files (snd (upload_file svc file w))
  = files (snd (save_file svc (os_path_join UPLOAD_FOLDER (filename file))
                          (file_bytes file) w)).
Proof.
  rewrite <- upload_body_files. unfold upload_file, try_except.
  by destruct (upload_body svc file w) as [[e|r] w'].
Qed.

(** An upload with an unsupported extension whose bytes could be saved:
    the answer is 400, the index is as before and the file is stored. *)
Lemma upload_unsupported svc file w :
  supported (filename file) = false →
  fst (save_file svc (os_path_join UPLOAD_FOLDER (filename file)) (file_bytes file) w)
  = inr tt →
  upload_file svc file w
  = (inr unsupported_format,
     snd (save_file svc (os_path_join UPLOAD_FOLDER (filename file)) (file_bytes file) w)).
Proof.
  intros Hext Hsave. unfold upload_file, try_except, upload_body.
  unfold mbind, M_bind, bind.
  apply (choose_loader_unsupported _ (os_path_join UPLOAD_FOLDER (filename file))) in Hext.
  rewrite Hext.
  destruct (save_file svc _ (file_bytes file) w) as [[e|[]] w1]; simpl in *; done.
Qed.

(** C1. An upload named notes.docx, an extension that is neither .pdf
    nor .txt, is answered with the unsupported-format error, status 400,
    and the vector index is left as it was; but the bytes are written to
    the document store before the extension is looked at, and stay
    there. *)
Theorem unsupported_upload_is_stored :
  supported (filename notes_docx) = false
  ∧ upload_file reliable notes_docx empty_world
    = (inr unsupported_format,
       mkWorld {[ "./document_store/notes.docx" := [x68; x69] ]} []).
Proof. split; vm_compute; reflexivity. Qed.

(** C3.  An upload named a/b.exe, an extension that is neither .pdf nor
    .txt, into a document store without the directory a: the bytes are
    saved before the extension is looked at, the open raises, and the
    answer is 500 with the text of that exception, where an unsupported
    extension is to be answered with 400. *)
Lemma unsupported_upload_answers_500 :
  supported "a/b.exe" = false
  ∧ fst (upload_file missing_directory (mkUploadFile "a/b.exe" []) empty_world)
    = inr (upload_failure
             (Exception "[Errno 2] No such file or directory: './document_store/a/b.exe'"))
  ∧ status_code
      (upload_failure
         (Exception "[Errno 2] No such file or directory: './document_store/a/b.exe'"))
    ≠ 400.
Proof. vm_compute. repeat split; discriminate. Qed.

(** C5.  Both definitions of GET /search/ always answer with a response
    and leave the state alone.  The first definition calls the chain,
    then the similarity search, then reads the key result of what the
    chain returned; the second calls the retriever, then the chain.
    When none of these raises, the status is 200 and the body holds the
    key retrieved_chunks with the texts of the documents that the
    search returned for this query on the current index, in their
    order, and the key answer with the text the chain generated.  When
    one of them raises, the status is 500 and the body holds the key
    error with the text of the first exception raised. *)
Theorem search_query_responses svc query w :
  let failure := fun e : PyException =>
    mkResponse 500 [("error", JString ("Error processing your request: " +:+ str_e e))] in
  let success := fun (retrieved_docs : list Document) (answer : string) =>
    mkResponse 200
      [("retrieved_chunks",
        JArray (map (fun doc => string_of_list_ascii (page_content doc)) retrieved_docs));
       ("answer", JString answer)] in
  search_query_invoke svc query w
  = (inr match qa_invoke svc (vector_db w) query with
         | inl e => failure e
         | inr result =>
             match similarity_search svc (vector_db w) query with
             | inl e => failure e
             | inr retrieved_docs =>
                 match dict_getitem "result" result with
                 | inl e => failure e
                 | inr answer => success retrieved_docs answer
                 end
             end
         end, w)
  ∧ search_query_run svc query w
    = (inr match get_relevant_documents svc (vector_db w) query with
           | inl e => failure e
           | inr retrieved_docs =>
               match qa_run svc (vector_db w) query with
               | inl e => failure e
               | inr answer => success retrieved_docs answer
               end
           end, w).
Proof.
  intros failure success. split.
  - unfold search_query_invoke, search_invoke_body. unfold_monad.
    destruct (qa_invoke svc (vector_db w) query) as [e|result]; [done|].
    destruct (similarity_search svc (vector_db w) query) as [e|docs]; [done|].
    by destruct (dict_getitem "result" result) as [e|answer].
  - unfold search_query_run, search_run_body. unfold_monad.
    destruct (get_relevant_documents svc (vector_db w) query) as [e|docs]; [done|].
    by destruct (qa_run svc (vector_db w) query) as [e|answer].
Qed.

(** C7.  Two uploads under the same file name: once the second upload
    has saved its bytes, the file of that name in the document store
    holds exactly the bytes of the second upload, whatever the first
    upload stored and however either request ends; no other file is
    touched by the second upload. *)
Theorem last_write_wins svc1 svc2 name data1 data2 w :
  let file_path := os_path_join UPLOAD_FOLDER name in
  let w1 := snd (upload_file svc1 (mkUploadFile name data1) w) in
  let w2 := snd (upload_file svc2 (mkUploadFile name data2) w1) in
  open_error svc2 file_path = None →
  write_error svc2 file_path data2 = None →
  files w2 !! file_path = Some data2
  ∧ files w2 = <[file_path := data2]> (files w1).
Proof.
  intros file_path w1 w2 Hopen Hwrite.
  assert (files w2 = <[file_path := data2]> (files w1)) as Hfiles.
  { subst w2. rewrite upload_file_files. simpl. fold file_path.
    destruct (save_file_spec svc2 file_path data2 w1) as (r & stored & Hsave & _ & Hok).
    destruct (Hok Hopen Hwrite) as [-> _]. by rewrite Hsave. }
  split; [|done]. rewrite Hfiles. apply lookup_insert_eq.
Qed.

Lemma last_write_wins_witness :
  open_error reliable (os_path_join UPLOAD_FOLDER "a.txt") = None
  ∧ write_error reliable (os_path_join UPLOAD_FOLDER "a.txt") [x69] = None
  ∧ files (snd (upload_file reliable (mkUploadFile "a.txt" [x69])
                  (snd (upload_file reliable (mkUploadFile "a.txt" [x68]) empty_world)))) 
      !! os_path_join UPLOAD_FOLDER "a.txt"
    = Some [x69].
Proof.
  split; [reflexivity|]. split; [reflexivity|].
  apply (last_write_wins reliable reliable "a.txt" [x68] [x69] empty_world);
    reflexivity.
Defined.

(** *** The splitter *)

Section SplitterFacts.

Context {A : Type}.
Implicit Types (rest text : list A).

(** The chunk at index [i] starts [stride * i] units after [start] and is
    the next [size] units of the text; a chunk that has a successor is
    full. *)
Lemma windows_lookup size stride fuel start rest i o c :
  windows size stride fuel start rest !! i = Some (o, c) →
  o = start + stride * i
  ∧ c = take size (drop (stride * i) rest)
  ∧ (is_Some (windows size stride fuel start rest !! S i) → length c = size).
Proof.
  revert start rest i. induction fuel as [|fuel IH]; intros start rest i; simpl.
  - destruct i; [|done]. intros [= <- <-].
    rewrite Nat.mul_0_r, Nat.add_0_r. split; [done|]. split; [done|].
    by intros [? ?].
  - destruct (Nat.leb_spec (length rest) size) as [Hfits|Hlong].
    + destruct i; [|done]. intros [= <- <-].
      rewrite Nat.mul_0_r, Nat.add_0_r. split; [done|].
      split; [by rewrite take_ge|]. by intros [? ?].
    + destruct i as [|i]; simpl.
      * intros [= <- <-]. rewrite Nat.mul_0_r, Nat.add_0_r.
        split; [done|]. split; [done|]. intros _. rewrite length_take. lia.
      * intros Hi. destruct (IH _ _ _ Hi) as (-> & -> & Hfull).
        split; [lia|]. split; [|done].
        rewrite drop_drop. do 2 f_equal. lia.
Qed.

(** The length of the text is enough fuel: more fuel gives the same
    chunks. *)
Lemma windows_fuel size stride fuel fuel' start rest :
  0 < stride → length rest ≤ fuel → length rest ≤ fuel' →
  windows size stride fuel start rest = windows size stride fuel' start rest.
Proof.
  intros Hstride. revert fuel' start rest.
  induction fuel as [|fuel IH]; intros fuel' start rest Hfuel Hfuel'.
  - destruct rest; [|simpl in Hfuel; lia]. by destruct fuel'; simpl; rewrite ?take_nil.
  - simpl. destruct (Nat.leb_spec (length rest) size) as [Hfits|Hlong].
    + destruct fuel' as [|fuel']; simpl.
      * destruct rest; [by rewrite take_nil|simpl in Hfuel'; lia].
      * by destruct (Nat.leb_spec (length rest) size); [|lia].
    + destruct fuel' as [|fuel']; [lia|]. simpl.
      destruct (Nat.leb_spec (length rest) size); [lia|].
      f_equal. apply IH; rewrite length_drop; lia.
Qed.

(** With enough fuel the last chunk ends where the text ends. *)
Lemma windows_last size stride fuel start rest :
  0 < stride ≤ size → length rest ≤ fuel →
  ∃ o c, last (windows size stride fuel start rest) = Some (o, c)
         ∧ o + length c = start + length rest.
Proof.
  intros [Hstride Hsize]. revert start rest.
  induction fuel as [|fuel IH]; intros start rest Hfuel; simpl.
  - destruct rest; [|simpl in Hfuel; lia]. exists start, []. by rewrite take_nil.
  - destruct (Nat.leb_spec (length rest) size) as [Hfits|Hlong].
    + by exists start, rest.
    + destruct (IH (start + stride) (drop stride rest)) as (o & c & Hlast & Hend).
      { rewrite length_drop. lia. }
      exists o, c. rewrite length_drop in Hend. split; [|lia].
      rewrite last_cons, Hlast. done.
Qed.

(** A text that fits in one chunk is its only chunk. *)
Lemma windows_fits size stride fuel start rest :
  length rest ≤ size → windows size stride fuel start rest = [(start, rest)].
Proof.
  intros Hfits. destruct fuel as [|fuel]; simpl.
  - by rewrite take_ge.
  - by destruct (Nat.leb_spec (length rest) size); [|lia].
Qed.

Lemma split_text_short size overlap text :
  length text ≤ size → split_text size overlap text = [text].
Proof.
  intros Hfits. unfold split_text, split_with_offsets. by rewrite windows_fits.
Qed.

(** C2.  The chunks of a text of any length, for chunk size 500 and
    overlap 50, each with its start offset: the chunk at index [i]
    starts at offset [450 * i] and is the text from there on, cut at 500
    units, so the chunks come in source order and none is longer than
    500; the start of each next chunk is 450 after the start of the
    chunk before, which then is 500 long; and the last chunk ends at the
    end of the text. *)
Theorem chunk_offsets text :
  let chunks := split_with_offsets chunk_size chunk_overlap text in
  split_text chunk_size chunk_overlap text = map snd chunks
  ∧ (∀ i o c, chunks !! i = Some (o, c) →
       o = 450 * i ∧ c = take 500 (drop o text) ∧ length c ≤ 500)
  ∧ (∀ i o c o' c', chunks !! i = Some (o, c) → chunks !! S i = Some (o', c') →
       o' = o + 450 ∧ length c = 500)
  ∧ (∃ o c, last chunks = Some (o, c) ∧ o + length c = length text).
Proof.
  intros chunks. split; [done|]. split; [|split].
  - intros i o c Hi.
    destruct (windows_lookup _ _ _ _ _ _ _ _ Hi) as (-> & -> & _).
    split; [done|]. split; [done|]. rewrite length_take. unfold chunk_size. lia.
  - intros i o c o' c' Hi Hnext.
    destruct (windows_lookup _ _ _ _ _ _ _ _ Hi) as (-> & _ & Hfull).
    destruct (windows_lookup _ _ _ _ _ _ _ _ Hnext) as (-> & _ & _).
    split; [unfold chunk_size, chunk_overlap; lia|]. apply Hfull. by eexists.
  - apply (windows_last chunk_size (chunk_size - chunk_overlap) (length text) 0 text);
      [unfold chunk_size, chunk_overlap; lia|done].
Qed.

End SplitterFacts.

(** C6.  A .txt file whose decoded text is shorter than the chunk size
    of 500: the loader gives one document with that text, and splitting
    it gives exactly one chunk, whose text is the input text itself, so
    also after any normalisation of whitespace applied to both. *)
Theorem short_text_one_chunk svc file_path data text w :
  files w !! file_path = Some data →
  decode_text svc data = inr text →
  length text < chunk_size →
  ∃ documents,
    load svc (TextLoader file_path) w = (inr documents, w)
    ∧ split_documents_spec documents = [mkDocument text file_path]
    ∧ ∀ normalize : list ascii → list ascii,
        map (fun chunk => normalize (page_content chunk)) (split_documents_spec documents)
        = [normalize text].
Proof.
  intros Hfile Hdecode Hshort. exists [mkDocument text file_path].
  assert (split_documents_spec [mkDocument text file_path] = [mkDocument text file_path])
    as Hsplit.
  { unfold split_documents_spec. simpl. rewrite split_text_short by lia. done. }
  split; [|split].
  - unfold load, read_file. unfold_monad. by rewrite Hfile, Hdecode.
  - done.
  - intros normalize. by rewrite Hsplit.
Qed.

Lemma short_text_one_chunk_witness :
  ∃ documents,
    load reliable (TextLoader "./document_store/a.txt")
         (mkWorld {[ "./document_store/a.txt" := [x68; x69] ]} [])
    = (inr documents, mkWorld {[ "./document_store/a.txt" := [x68; x69] ]} [])
    ∧ split_documents_spec documents
      = [mkDocument ["h"; "i"]%char "./document_store/a.txt"].
Proof.
  destruct (short_text_one_chunk reliable "./document_store/a.txt" [x68; x69]
              ["h"; "i"]%char
              (mkWorld {[ "./document_store/a.txt" := [x68; x69] ]} []))
    as (documents & Hload & Hsplit & _).
  - reflexivity.
  - reflexivity.
  - unfold chunk_size. simpl. lia.
  - exists documents. split; [exact Hload|exact Hsplit].
Defined.

(** *** What an upload does to the store and to the index *)

Lemma save_file_ok svc file w :
  saves svc file →
  save_file svc (os_path_join UPLOAD_FOLDER (filename file)) (file_bytes file) w
  = (inr tt, stored (os_path_join UPLOAD_FOLDER (filename file)) (file_bytes file) w).
Proof.
  intros [Hopen Hwrite]. unfold save_file, stored. rewrite Hopen, Hwrite.
  unfold_monad. unfold set_files. simpl. by rewrite insert_insert_eq.
Qed.

Lemma save_file_returns svc file_path data w w' :
  save_file svc file_path data w = (inr tt, w') → w' = stored file_path data w.
Proof.
  unfold save_file, stored.
  destruct (open_error svc file_path); [done|].
  destruct (write_error svc file_path data) as [[n e]|]; unfold_monad;
    unfold set_files; simpl; [done|].
  intros [= <-]. by rewrite insert_insert_eq.
Qed.

(** What a loader returns depends on the files only. *)
Lemma load_files svc loader w1 w2 :
  files w1 = files w2 → fst (load svc loader w1) = fst (load svc loader w2).
Proof.
  intros Hfiles. destruct loader as [file_path|file_path];
    unfold load, read_file; unfold_monad; rewrite Hfiles;
    destruct (files w2 !! file_path); try done.
  - by destruct (pdf_pages svc _).
  - by destruct (decode_text svc _).
Qed.

Lemma load_returns svc loader w documents w' :
  load svc loader w = (inr documents, w') → w' = w.
Proof. intros Hload. pose proof (load_state svc loader w) as Hw. by rewrite Hload in Hw. Qed.

(** The steps of a supported upload, once the bytes are saved. *)
Lemma upload_file_indexing svc file w loader :
  saves svc file →
  choose_loader (filename file) (os_path_join UPLOAD_FOLDER (filename file)) = Some loader →
  upload_file svc file w
  = try_except
      (documents ← load svc loader;
       chunks ← lift (split_documents svc documents);
       add_documents svc chunks;;
       persist svc;;
       mret (uploaded (filename file)))
      (fun e => mret (upload_failure e))
      (stored (os_path_join UPLOAD_FOLDER (filename file)) (file_bytes file) w).
Proof.
  intros Hsaves Hloader. unfold upload_file, upload_body. rewrite Hloader.
  unfold try_except at 1 2. unfold mbind at 1, M_bind at 1, bind at 1.
  by rewrite (save_file_ok svc file w Hsaves).
Qed.

(** An upload answered with status 200 went through every step. *)
Lemma upload_ok_inv svc file w r w' :
  upload_file svc file w = (inr r, w') → status_code r = 200 →
  ∃ loader documents chunks,
    choose_loader (filename file) (os_path_join UPLOAD_FOLDER (filename file)) = Some loader
    ∧ fst (load svc loader
             (stored (os_path_join UPLOAD_FOLDER (filename file)) (file_bytes file) w))
      = inr documents
    ∧ split_documents svc documents = inr chunks
    ∧ r = uploaded (filename file)
    ∧ w' = mkWorld (<[os_path_join UPLOAD_FOLDER (filename file) := file_bytes file]> (files w))
                   (vector_db w ++ chunks).
Proof.
  set (file_path := os_path_join UPLOAD_FOLDER (filename file)).
  unfold upload_file, upload_body. fold file_path. unfold_monad.
  destruct (save_file svc file_path (file_bytes file) w) as [[e|[]] w1] eqn:Hsave;
    [by intros [= <- <-]|].
  apply save_file_returns in Hsave as ->.
  destruct (choose_loader (filename file) file_path) as [loader|]; [|by intros [= <- <-]].
  destruct (load svc loader (stored file_path (file_bytes file) w))
    as [[e|documents] w2] eqn:Hload; [by intros [= <- <-]|].
  apply load_returns in Hload as Hw2. subst w2.
  destruct (split_documents svc documents) as [e|chunks] eqn:Hsplit; [by intros [= <- <-]|].
  unfold add_documents, persist.
  destruct (add_documents_error svc chunks) as [[n e]|]; unfold_monad;
    [by intros [= <- <-]|].
  destruct (persist_error svc); unfold_monad; [by intros [= <- <-]|].
  intros [= <- <-] _. exists loader, documents, chunks. by rewrite Hload.
Qed.

(** X1.  When POST /upload/ answers 200, the uploaded bytes are in the
    store under the joined path, and the index is the index
    of before followed by exactly the chunks that the splitter returned
    for the documents loaded from the stored file, in that order. *)
Theorem upload_ok_effect svc file w r w' :
  upload_file svc file w = (inr r, w') → status_code r = 200 →
  ∃ loader documents chunks,
    choose_loader (filename file) (os_path_join UPLOAD_FOLDER (filename file)) = Some loader
    ∧ fst (load svc loader
             (stored (os_path_join UPLOAD_FOLDER (filename file)) (file_bytes file) w))
      = inr documents
    ∧ split_documents svc documents = inr chunks
    ∧ files w' !! os_path_join UPLOAD_FOLDER (filename file) = Some (file_bytes file)
    ∧ vector_db w' = vector_db w ++ chunks
    ∧ body_get "filename" (content r) = Some (JString (filename file)).
Proof.
  intros Hupload Hok.
  destruct (upload_ok_inv svc file w r w' Hupload Hok)
    as (loader & documents & chunks & Hloader & Hload & Hsplit & -> & ->).
  exists loader, documents, chunks. simpl.
  rewrite lookup_insert_eq. by repeat split.
Qed.

Lemma upload_ok_effect_witness :
  ∃ chunks,
    vector_db (snd (upload_file reliable (mkUploadFile "a.txt" [x68; x69]) empty_world))
    = vector_db empty_world ++ chunks.
Proof.
  destruct (upload_ok_effect reliable (mkUploadFile "a.txt" [x68; x69]) empty_world
              (uploaded "a.txt")
              (snd (upload_file reliable (mkUploadFile "a.txt" [x68; x69]) empty_world)))
    as (loader & documents & chunks & _ & _ & _ & _ & Hdb & _).
  - vm_compute. reflexivity.
  - reflexivity.
  - by exists chunks.
Defined.

(** The index of before is kept by every step of the body. *)
Lemma upload_body_index svc file w :
  vector_db w `prefix_of` vector_db (snd (upload_body svc file w)).
Proof.
  set (file_path := os_path_join UPLOAD_FOLDER (filename file)).
  unfold upload_body. fold file_path. unfold_monad.
  destruct (save_file_spec svc file_path (file_bytes file) w) as (r & saved & Hsave & _).
  rewrite Hsave. destruct r as [e|[]]; [done|].
  set (w1 := mkWorld _ (vector_db w)).
  destruct (choose_loader (filename file) file_path) as [loader|]; [|done].
  pose proof (load_state svc loader w1) as Hload.
  destruct (load svc loader w1) as [[e|documents] w2]; simpl in Hload; subst w2; [done|].
  destruct (split_documents svc documents) as [e|chunks]; [done|].
  unfold add_documents, persist.
  destruct (add_documents_error svc chunks) as [[n e]|]; unfold_monad;
    unfold set_vector_db; simpl; [by apply prefix_app_r|].
  destruct (persist_error svc); simpl; by apply prefix_app_r.
Qed.

(** X2.  Whatever the outcome of an upload, and at whatever step it
    fails, the documents that were in the index are still there, in
    their order, in front of anything the upload added. *)
Theorem upload_keeps_indexed_documents svc file w :
  ∃ added, vector_db (snd (upload_file svc file w)) = vector_db w ++ added.
Proof.
  pose proof (upload_body_index svc file w) as Hindex.
  unfold upload_file, try_except.
  by destruct (upload_body svc file w) as [[e|r] w'].
Qed.

(** X3.  A supported upload whose bytes were saved and whose loader
    raises is answered 500 with the text of that exception; the file
    stays in the store, there is no clean-up, and the index is as
    before. *)
Theorem loader_failure_keeps_file svc file w loader e :
  saves svc file →
  choose_loader (filename file) (os_path_join UPLOAD_FOLDER (filename file)) = Some loader →
  fst (load svc loader
         (stored (os_path_join UPLOAD_FOLDER (filename file)) (file_bytes file) w))
  = inl e →
  upload_file svc file w
  = (inr (upload_failure e),
     stored (os_path_join UPLOAD_FOLDER (filename file)) (file_bytes file) w).
Proof.
  intros Hsaves Hloader Hload. rewrite (upload_file_indexing svc file w loader) by done.
  unfold_monad. pose proof (load_state svc loader
    (stored (os_path_join UPLOAD_FOLDER (filename file)) (file_bytes file) w)) as Hw.
  destruct (load svc loader _) as [[e'|documents] w2]; simpl in *; [|done].
  by simplify_eq.
Qed.

Lemma loader_failure_keeps_file_witness :
  upload_file undecodable (mkUploadFile "a.txt" [xff]) empty_world
  = (inr (upload_failure (Exception "'utf-8' codec can't decode byte 0xff")),
     stored "./document_store/a.txt" [xff] empty_world).
Proof.
  apply (loader_failure_keeps_file undecodable (mkUploadFile "a.txt" [xff]) empty_world
           (TextLoader "./document_store/a.txt")).
  - split; reflexivity.
  - reflexivity.
  - reflexivity.
Defined.

(** X4.  When [add_documents] raises after it has inserted the first
    [n] chunks, the upload is answered 500 and those [n] chunks stay in
    the index: nothing is rolled back. *)
Theorem indexing_failure_keeps_chunks svc file w loader documents chunks n e :
  saves svc file →
  choose_loader (filename file) (os_path_join UPLOAD_FOLDER (filename file)) = Some loader →
  fst (load svc loader
         (stored (os_path_join UPLOAD_FOLDER (filename file)) (file_bytes file) w))
  = inr documents →
  split_documents svc documents = inr chunks →
  add_documents_error svc chunks = Some (n, e) →
  upload_file svc file w
  = (inr (upload_failure e),
     mkWorld (<[os_path_join UPLOAD_FOLDER (filename file) := file_bytes file]> (files w))
             (vector_db w ++ take n chunks)).
Proof.
  intros Hsaves Hloader Hload Hsplit Hadd.
  rewrite (upload_file_indexing svc file w loader) by done.
  unfold_monad. pose proof (load_state svc loader
    (stored (os_path_join UPLOAD_FOLDER (filename file)) (file_bytes file) w)) as Hw.
  destruct (load svc loader _) as [[e'|documents'] w2]; simpl in *; [done|].
  simplify_eq. rewrite Hsplit. unfold add_documents. rewrite Hadd. done.
Qed.

Lemma indexing_failure_keeps_chunks_witness :
  vector_db (snd (upload_file embedding_fails (mkUploadFile "a.pdf" [x68]) empty_world))
  = [mkDocument ["p"; "1"]%char "./document_store/a.pdf"].
Proof.
  rewrite (indexing_failure_keeps_chunks embedding_fails (mkUploadFile "a.pdf" [x68])
             empty_world (PyPDFLoader "./document_store/a.pdf")
             [mkDocument ["p"; "1"]%char "./document_store/a.pdf";
              mkDocument ["p"; "2"]%char "./document_store/a.pdf"]
             [mkDocument ["p"; "1"]%char "./document_store/a.pdf";
              mkDocument ["p"; "2"]%char "./document_store/a.pdf"]
             1 (Exception "embedding failed")).
  - reflexivity.
  - split; reflexivity.
  - reflexivity.
  - reflexivity.
  - reflexivity.
  - reflexivity.
Defined.

(** X5.  When every chunk was added and persisting the index raises,
    the upload is answered 500 although the file is stored and all its
    chunks are in the index. *)
Theorem persist_failure_after_indexing svc file w loader documents chunks e :
  saves svc file →
  choose_loader (filename file) (os_path_join UPLOAD_FOLDER (filename file)) = Some loader →
  fst (load svc loader
         (stored (os_path_join UPLOAD_FOLDER (filename file)) (file_bytes file) w))
  = inr documents →
  split_documents svc documents = inr chunks →
  add_documents_error svc chunks = None →
  persist_error svc = Some e →
  upload_file svc file w
  = (inr (upload_failure e),
     mkWorld (<[os_path_join UPLOAD_FOLDER (filename file) := file_bytes file]> (files w))
             (vector_db w ++ chunks)).
Proof.
  intros Hsaves Hloader Hload Hsplit Hadd Hpersist.
  rewrite (upload_file_indexing svc file w loader) by done.
  unfold_monad. pose proof (load_state svc loader
    (stored (os_path_join UPLOAD_FOLDER (filename file)) (file_bytes file) w)) as Hw.
  destruct (load svc loader _) as [[e'|documents'] w2]; simpl in *; [done|].
  simplify_eq. rewrite Hsplit. unfold add_documents, persist.
  rewrite Hadd, Hpersist. done.
Qed.

Lemma persist_failure_after_indexing_witness :
  upload_file persist_fails (mkUploadFile "a.txt" [x68; x69]) empty_world
  = (inr (upload_failure (Exception "'dict' object has no attribute 'persist'")),
     mkWorld {[ "./document_store/a.txt" := [x68; x69] ]}
       [mkDocument ["h"; "i"]%char "./document_store/a.txt"]).
Proof.
  rewrite (persist_failure_after_indexing persist_fails (mkUploadFile "a.txt" [x68; x69])
             empty_world (TextLoader "./document_store/a.txt")
             [mkDocument ["h"; "i"]%char "./document_store/a.txt"]
             [mkDocument ["h"; "i"]%char "./document_store/a.txt"]
             (Exception "'dict' object has no attribute 'persist'")).
  - reflexivity.
  - split; reflexivity.
  - reflexivity.
  - reflexivity.
  - reflexivity.
  - reflexivity.
  - reflexivity.
Defined.

(** X6.  An upload whose name ends with neither .pdf nor .txt never
    changes the index, whatever the collaborators do. *)
Theorem unsupported_upload_keeps_index svc file w :
  supported (filename file) = false →
  vector_db (snd (upload_file svc file w)) = vector_db w.
Proof.
  intros Hext.
  apply (choose_loader_unsupported _ (os_path_join UPLOAD_FOLDER (filename file))) in Hext.
  unfold upload_file, upload_body. rewrite Hext. unfold_monad.
  destruct (save_file_spec svc (os_path_join UPLOAD_FOLDER (filename file))
              (file_bytes file) w) as (r & saved & -> & _).
  by destruct r as [e|[]].
Qed.

Lemma unsupported_upload_keeps_index_witness :
  vector_db (snd (upload_file missing_directory (mkUploadFile "a/b.exe" []) empty_world))
  = vector_db empty_world.
Proof.
  apply (unsupported_upload_keeps_index missing_directory (mkUploadFile "a/b.exe" [])
           empty_world). reflexivity.
Defined.




(** *** Searching *)

Lemma dict_getitem_found key d v : dict_getitem key d = inr v → (key, v) ∈ d.
Proof.
  induction d as [|[k v'] d IH]; simpl; [done|].
  destruct (String.eqb k key) eqn:Hk.
  - apply String.eqb_eq in Hk as ->. intros [= ->]. apply list_elem_of_here.
  - intros Hd. apply list_elem_of_further. by apply IH.
Qed.

Lemma dict_getitem_missing key d e :
  dict_getitem key d = inl e →
  e = Exception ("'" +:+ key +:+ "'") ∧ ∀ v, (key, v) ∉ d.
Proof.
  induction d as [|[k v'] d IH]; simpl.
  - intros [= <-]. split; [done|]. intros v Hv. by apply elem_of_nil in Hv.
  - destruct (String.eqb k key) eqn:Hk; [done|]. intros Hd.
    destruct (IH Hd) as [-> Hnone]. split; [done|].
    intros v [[= -> ->]|Hv]%elem_of_cons; [|by eapply Hnone].
    by rewrite String.eqb_refl in Hk.
Qed.

(** X8.  The first definition of GET /search/ reads the key result of
    what the chain returned.  When the chain and the similarity search
    raise nothing, the answer is 200 exactly when the chain's dict has
    the key result; without it the lookup raises KeyError and the
    answer is 500 with the quoted key as the error text, although the
    chunks were retrieved. *)
Theorem search_needs_result_key svc query w result docs :
  qa_invoke svc (vector_db w) query = inr result →
  similarity_search svc (vector_db w) query = inr docs →
  ∃ r,
    search_query_invoke svc query w = (inr r, w)
    ∧ (status_code r = 200 ↔ ∃ v, ("result", v) ∈ result)
    ∧ ((∀ v, ("result", v) ∉ result) → r = search_failure (Exception "'result'")).
Proof.
  intros Hchain Hdocs. unfold search_query_invoke, search_invoke_body. unfold_monad.
  rewrite Hchain, Hdocs.
  destruct (dict_getitem "result" result) as [e|answer] eqn:Hget; simpl.
  - destruct (dict_getitem_missing _ _ _ Hget) as [-> Hnone].
    eexists. split; [done|]. split; [|done]. simpl. split; [done|].
    intros [v Hv]. by destruct (Hnone v).
  - apply dict_getitem_found in Hget.
    eexists. split; [done|]. split.
    + simpl. split; [eauto|done].
    + intros Hnone. by destruct (Hnone answer).
Qed.

Lemma search_needs_result_key_witness :
  fst (search_query_invoke answer_without_result "why" empty_world)
  = inr (search_failure (Exception "'result'")).
Proof.
  destruct (search_needs_result_key answer_without_result "why" empty_world
              [("query", "why"); ("output", "why")] [] eq_refl eq_refl)
    as (r & -> & _ & Hfail).
  simpl. f_equal. apply Hfail. intros v Hv.
  repeat (apply elem_of_cons in Hv as [Hv|Hv]; [discriminate|]).
  by apply elem_of_nil in Hv.
Defined.

(** *** Uploading a file again *)

(** X9.  Uploading the same file twice with both answers 200 indexes it
    twice: the chunks of the file are in the index two times, one copy
    after the other, and nothing tells the second upload that the file
    is already there. *)
Theorem reupload_indexes_twice svc file w r1 w1 r2 w2 :
  upload_file svc file w = (inr r1, w1) → status_code r1 = 200 →
  upload_file svc file w1 = (inr r2, w2) → status_code r2 = 200 →
  ∃ chunks,
    vector_db w1 = vector_db w ++ chunks
    ∧ vector_db w2 = vector_db w ++ chunks ++ chunks
    ∧ files w2 = files w1.
Proof.
  intros Hfirst Hok1 Hsecond Hok2.
  destruct (upload_ok_inv svc file w r1 w1 Hfirst Hok1)
    as (loader & documents & chunks & Hloader & Hload & Hsplit & _ & ->).
  destruct (upload_ok_inv svc file _ r2 w2 Hsecond Hok2)
    as (loader' & documents' & chunks' & Hloader' & Hload' & Hsplit' & _ & ->).
  rewrite Hloader in Hloader'. injection Hloader' as <-.
  rewrite (load_files svc loader _
             (stored (os_path_join UPLOAD_FOLDER (filename file)) (file_bytes file) w))
    in Hload' by (simpl; apply insert_insert_eq).
  rewrite Hload in Hload'. injection Hload' as <-.
  rewrite Hsplit in Hsplit'. injection Hsplit' as <-.
  exists chunks. simpl. split; [done|]. split; [by rewrite <- app_assoc|].
  apply insert_insert_eq.
Qed.

Lemma reupload_indexes_twice_witness :
  ∃ chunks,
    vector_db (snd (upload_file reliable (mkUploadFile "a.txt" [x68; x69])
                      (snd (upload_file reliable (mkUploadFile "a.txt" [x68; x69])
                              empty_world))))
    = vector_db empty_world ++ chunks ++ chunks.
Proof.
  destruct (reupload_indexes_twice reliable (mkUploadFile "a.txt" [x68; x69]) empty_world
              (uploaded "a.txt")
              (snd (upload_file reliable (mkUploadFile "a.txt" [x68; x69]) empty_world))
              (uploaded "a.txt")
              (snd (upload_file reliable (mkUploadFile "a.txt" [x68; x69])
                      (snd (upload_file reliable (mkUploadFile "a.txt" [x68; x69])
                              empty_world)))))
    as (chunks & _ & Hdb & _).
  - vm_compute. reflexivity.
  - reflexivity.
  - vm_compute. reflexivity.
  - reflexivity.
  - by exists chunks.
Defined.

End BackendProofs.

(** * Properties of the client *)

Module FrontendProofs.

Import Frontend.

Ltac unfold_script :=
  unfold mbind, M_bind, mret, M_ret, bind, try_except, lift, uncaught, render,
    list_append, new_list, modify, get_state, raise, ret in *.

Section Moves.

Context (R : State → State → Prop).

Lemma steps_bind {A B} (m : Script A) (k : A → Script B) s :
  rtc R s (snd (m s)) → (∀ a, moves R (k a)) → rtc R s (snd ((m ≫= k) s)).
Proof.
  intros Hm Hk. unfold mbind, M_bind, bind.
  destruct (m s) as [[e|a] s']; simpl in *; [done|].
  etrans; [exact Hm|apply Hk].
Qed.

Lemma moves_bind {A B} (m : Script A) (k : A → Script B) :
  moves R m → (∀ a, moves R (k a)) → moves R (m ≫= k).
Proof. intros Hm Hk s. by apply steps_bind. Qed.

Lemma moves_get {B} (k : State → Script B) :
  (∀ s, rtc R s (snd (k s s))) → moves R (get_state ≫= k).
Proof. intros Hk s. apply Hk. Qed.

Lemma moves_ret {A} (a : A) : moves R (mret a).
Proof. intros s. reflexivity. Qed.

Lemma moves_raise {A} (e : ScriptStop) : moves R (raise e : Script A).
Proof. intros s. reflexivity. Qed.

Lemma moves_uncaught {A} (r : PyException + A) : moves R (uncaught r).
Proof. destruct r; [apply moves_raise|apply moves_ret]. Qed.

Lemma moves_if {A} (b : bool) (m1 m2 : Script A) :
  moves R m1 → moves R m2 → moves R (if b then m1 else m2).
Proof. by destruct b. Qed.

End Moves.

Lemma moves_render saving r : moves (chat_step saving) (render r).
Proof. intros s. apply rtc_once, chat_render. Qed.

Lemma upload_and_list_moves saving out w :
  moves (chat_step saving) (upload_and_list out w).
Proof.
  unfold upload_and_list.
  apply moves_bind; [apply moves_render|intros _].
  apply moves_bind.
  - destruct (uploaded_file w) as [file|]; [|apply moves_ret].
    apply moves_bind; [apply moves_uncaught|intros response].
    apply moves_if; apply moves_render.
  - intros _. apply moves_bind; [apply moves_render|intros _].
    apply moves_bind; [apply moves_uncaught|intros _]. apply moves_ret.
Qed.

Lemma list_append_current saving x s :
  rtc (chat_step saving) s (snd (list_append (messages s) x s)).
Proof. apply rtc_once. apply chat_append. Qed.

Lemma send_moves saving out w : moves (chat_step saving) (send out w).
Proof.
  unfold send.
  apply moves_bind; [apply moves_render|intros _].
  apply moves_if; [|apply moves_ret].
  apply moves_get. intros s.
  apply steps_bind; [apply list_append_current|intros _].
  apply moves_bind; [apply moves_uncaught|intros response].
  apply moves_get. intros s'. apply list_append_current.
Qed.

Lemma new_messages_moves saving xs (k : Script unit) :
  moves (chat_step saving) k →
  moves (chat_step saving) (l ← new_list xs; modify (set_messages l);; k).
Proof.
  intros Hk s. unfold_script. simpl.
  destruct (k _) as [r s'] eqn:Hrun.
  eapply rtc_l; [apply (chat_new_messages _ s xs)|].
  specialize (Hk (set_messages (fresh (dom (heap s)))
                    (set_heap (<[fresh (dom (heap s)) := xs]> (heap s)) s))).
  rewrite Hrun in Hk. destruct r; exact Hk.
Qed.

Lemma save_chat_moves w : moves (chat_step true) (save_chat w).
Proof.
  unfold save_chat. apply moves_if; [|apply moves_ret].
  apply moves_get. intros s. unfold_script. simpl.
  eapply rtc_l.
  - by apply (chat_save true s ("Session " +:+ pretty (size (chat_sessions s) + 1))
                        (deref s (messages s))).
  - apply rtc_once.
    match goal with |- chat_step _ ?a _ => exact (chat_render _ a _) end.
Qed.

Lemma save_chat_idle w :
  is_clicked w SaveChatButton = false → moves (chat_step false) (save_chat w).
Proof. intros Hw. unfold save_chat. rewrite Hw. apply moves_ret. Qed.

Lemma load_chat_moves saving w : moves (chat_step saving) (load_chat w).
Proof.
  unfold load_chat. apply moves_get. intros s.
  destruct (truthy (selected_session w)); [|reflexivity].
  destruct (chat_sessions s !! selected_session w) as [saved|]; [|reflexivity].
  apply new_messages_moves, moves_render.
Qed.

Lemma clear_chat_moves saving w : moves (chat_step saving) (clear_chat w).
Proof.
  unfold clear_chat. apply moves_if; [|apply moves_ret].
  apply new_messages_moves, moves_render.
Qed.

Lemma chat_step_saving saving s s' : chat_step saving s s' → chat_step true s s'.
Proof. destruct 1; by constructor. Qed.

Lemma chat_ui_moves_with out w (saving : bool) :
  moves (chat_step saving) (save_chat w) →
  moves (chat_step saving) (chat_ui out w).
Proof.
  intros Hsave. unfold chat_ui.
  apply moves_bind; [apply upload_and_list_moves|intros _].
  apply moves_bind; [apply send_moves|intros _].
  apply moves_bind; [apply moves_render|intros _].
  apply moves_bind; [exact Hsave|intros _].
  apply moves_bind; [apply load_chat_moves|intros _].
  apply clear_chat_moves.
Qed.

Lemma chat_ui_moves out w : moves (chat_step true) (chat_ui out w).
Proof. apply chat_ui_moves_with, save_chat_moves. Qed.

Lemma chat_ui_idle out w :
  is_clicked w SaveChatButton = false → moves (chat_step false) (chat_ui out w).
Proof. intros Hw. by apply chat_ui_moves_with, save_chat_idle. Qed.

(** *** What the transitions keep *)

Lemma chat_steps_same_session saving s s' :
  rtc (chat_step saving) s s' → same_session s s'.
Proof.
  induction 1 as [s|s s1 s' Hstep _ IH].
  - by repeat split.
  - destruct IH as (Hl & Hu & Hs & Hj & Hr).
    destruct Hstep; simpl in *; repeat split; try done.
    etrans; [|exact Hr]. by apply prefix_app_r.
Qed.

Lemma fresh_not_allocated (h : gmap nat (list Message)) l :
  l ∈ dom h → l ≠ fresh (dom h).
Proof. intros Hl ->. by apply (is_fresh (dom h)). Qed.

Lemma allocated_insert (h : gmap nat (list Message)) l xs : l ∈ dom (<[l := xs]> h).
Proof. apply elem_of_dom. rewrite lookup_insert_eq. eauto. Qed.

Lemma allocated_keep (h : gmap nat (list Message)) l l' xs :
  l ∈ dom h → l ∈ dom (<[l' := xs]> h).
Proof. apply dom_insert_subseteq. Qed.

Lemma step_wf saving s s' : step saving s s' → wf s → wf s'.
Proof.
  intros Hstep [Hcur Hsaved]. destruct Hstep as [s s' Hchat|s s' Hh Hm' Hc].
  - destruct Hchat as [s r|s x|s xs|s name xs _]; simpl.
    + done.
    + split; simpl; [apply allocated_insert|].
      intros name l Hl. destruct (Hsaved name l Hl) as [Hd Hne].
      split; [|done]. by apply allocated_keep.
    + split; simpl; [apply allocated_insert|].
      intros name l Hl. destruct (Hsaved name l Hl) as [Hd Hne].
      split; [by apply allocated_keep|]. by apply fresh_not_allocated.
    + split; simpl; [by apply allocated_keep|].
      intros name' l. rewrite lookup_insert. case_decide.
      * intros [= <-]. split; [apply allocated_insert|].
        apply not_eq_sym. by apply fresh_not_allocated.
      * intros Hl. destruct (Hsaved name' l Hl) as [Hd Hne].
        split; [|done]. by apply allocated_keep.
  - unfold wf. rewrite Hh, Hm', Hc. done.
Qed.

Lemma steps_wf saving s s' : rtc (step saving) s s' → wf s → wf s'.
Proof. induction 1; eauto using step_wf. Qed.

Lemma step_snapshot name l saved s s' :
  step false s s' → snapshot name l saved s → snapshot name l saved s'.
Proof.
  intros Hstep (Hname & Hl & Hne). destruct Hstep as [s s' Hchat|s s' Hh Hm' Hc].
  - assert (l ∈ dom (heap s)) as Hdom by (apply elem_of_dom; eauto).
    destruct Hchat as [s r|s x|s xs|s name' xs Hsaving]; simpl.
    + done.
    + repeat split; simpl; try done. by rewrite lookup_insert_ne.
    + pose proof (fresh_not_allocated _ _ Hdom).
      repeat split; simpl; try done. by rewrite lookup_insert_ne.
    + discriminate.
  - unfold snapshot. by rewrite Hh, Hm', Hc.
Qed.

Lemma steps_snapshot name l saved s s' :
  rtc (step false) s s' → snapshot name l saved s → snapshot name l saved s'.
Proof. induction 1; eauto using step_snapshot. Qed.

(** *** The authentication block *)

Lemma clicked_is_clicked w b : clicked w = Some b → is_clicked w b = true.
Proof. unfold is_clicked. intros ->. by destruct b. Qed.

Lemma clicked_other w b b' : clicked w = Some b → b ≠ b' → is_clicked w b' = false.
Proof. unfold is_clicked. intros -> Hne. by destruct b, b'. Qed.

Lemma not_clicked w b : clicked w = None → is_clicked w b = false.
Proof. unfold is_clicked. by intros ->. Qed.

(** A rejected sign-up or login: the run only renders. *)
Lemma script_rejected sha out w s (notice : Rendered) :
  logged_in s = false →
  match auth_choice w with
  | SignUp => sign_up out w (hash_password sha (password_input w))
  | Login => login w (hash_password sha (password_input w))
  end (set_rendered [authentication_header] s)
  = (inr tt, set_rendered [authentication_header; notice] s) →
  script sha out w s
  = (inr tt, set_rendered [authentication_header; notice; please_log_in] s).
Proof.
  intros Hout Hauth.
  destruct s as [li un ms cs us hp uj rd]. simpl in Hout. subst li.
  unfold script, authentication. unfold_script.
  unfold set_rendered in *. simpl in *. by rewrite Hauth.
Qed.

Lemma sign_up_incomplete out w hashed s :
  clicked w = Some SignUpButton →
  username_input w = EmptyString ∨ password_input w = EmptyString →
  sign_up out w hashed s
  = (inr tt,
     set_rendered
       (rendered s ++ [SidebarError "⚠️ Please enter a username and password."]) s).
Proof.
  intros Hclick Hempty. unfold sign_up. rewrite (clicked_is_clicked _ _ Hclick).
  assert (truthy (username_input w) && truthy (password_input w) = false) as ->; [|done].
  destruct Hempty as [-> | ->]; [done|]. apply andb_false_r.
Qed.

Lemma sign_up_taken out w hashed s :
  clicked w = Some SignUpButton →
  truthy (username_input w) && truthy (password_input w) = true →
  is_Some (user_store s !! username_input w) →
  sign_up out w hashed s
  = (inr tt, set_rendered (rendered s ++ [SidebarError "⚠️ Username already exists!"]) s).
Proof.
  intros Hclick Hfilled [stored Hstored]. unfold sign_up.
  rewrite (clicked_is_clicked _ _ Hclick), Hfilled. unfold_script.
  by rewrite Hstored.
Qed.

Lemma login_rejected w hashed s :
  clicked w = Some LoginButton →
  user_store s !! username_input w ≠ Some hashed →
  login w hashed s
  = (inr tt, set_rendered (rendered s ++ [SidebarError "❌ Invalid credentials."]) s).
Proof.
  intros Hclick Hwrong. unfold login. rewrite (clicked_is_clicked _ _ Hclick).
  unfold_script. destruct (user_store s !! username_input w) as [stored|]; [|done].
  destruct (String.eqb stored hashed) eqn:Heq; [|done].
  apply String.eqb_eq in Heq. by subst.
Qed.

Lemma login_accepted w hashed s :
  clicked w = Some LoginButton →
  user_store s !! username_input w = Some hashed →
  login w hashed s
  = (inr tt,
     set_rendered (rendered s ++ [SidebarSuccess "✅ Logged in successfully!"])
       (set_username (username_input w) (set_logged_in true s))).
Proof.
  intros Hclick Hstored. unfold login. rewrite (clicked_is_clicked _ _ Hclick).
  unfold_script. rewrite Hstored. by rewrite String.eqb_refl.
Qed.

(** An accepted login: the run goes on with the chat interface. *)
Lemma script_accepted sha out w s :
  logged_in s = false → auth_choice w = Login → clicked w = Some LoginButton →
  user_store s !! username_input w = Some (hash_password sha (password_input w)) →
  script sha out w s
  = chat_ui out w
      (set_rendered [authentication_header; SidebarSuccess "✅ Logged in successfully!"]
         (set_username (username_input w) (set_logged_in true s))).
Proof.
  intros Hout Hchoice Hclick Hstored.
  pose proof (login_accepted w _ (set_rendered [authentication_header] s) Hclick Hstored)
    as Hlogin.
  destruct s as [li un ms cs us hp uj rd]. simpl in Hout. subst li.
  unfold script, authentication. rewrite Hchoice. unfold_script.
  unfold set_rendered, set_username, set_logged_in in *. simpl in *. by rewrite Hlogin.
Qed.

Lemma rendered_kept saving s s' r :
  rtc (chat_step saving) s s' → r ∈ rendered s → r ∈ rendered s'.
Proof.
  intros Hsteps Hr. apply chat_steps_same_session in Hsteps as (_ & _ & _ & _ & [k ->]).
  apply elem_of_app. by left.
Qed.

Lemma rendered_first {A} saving r (k : Script A) s :
  moves (chat_step saving) k → r ∈ rendered (snd ((render r;; k) s)).
Proof.
  intros Hk. unfold mbind, M_bind, bind, render, modify.
  eapply rendered_kept; [apply Hk|]. simpl. apply elem_of_app. right. by left.
Qed.

Lemma rendered_through {A B} saving r (m : Script A) (k : A → Script B) s :
  r ∈ rendered (snd (m s)) → (∀ a, moves (chat_step saving) (k a)) →
  r ∈ rendered (snd ((m ≫= k) s)).
Proof.
  intros Hm Hk. unfold mbind, M_bind, bind.
  destruct (m s) as [[e|a] s']; [done|]. eapply rendered_kept; [apply Hk|done].
Qed.

Lemma upload_header_rendered out w s :
  upload_header ∈ rendered (snd (chat_ui out w s)).
Proof.
  unfold chat_ui. apply (rendered_through true).
  - unfold upload_and_list. apply (rendered_first true).
    apply moves_bind.
    + destruct (uploaded_file w) as [file|]; [|apply moves_ret].
      apply moves_bind; [apply moves_uncaught|intros response].
      apply moves_if; apply moves_render.
    + intros _. apply moves_bind; [apply moves_render|intros _].
      apply moves_bind; [apply moves_uncaught|intros _]. apply moves_ret.
  - intros _.
    apply moves_bind; [apply send_moves|intros _].
    apply moves_bind; [apply moves_render|intros _].
    apply moves_bind; [apply save_chat_moves|intros _].
    apply moves_bind; [apply load_chat_moves|intros _].
    apply clear_chat_moves.
Qed.

Lemma upload_and_list_returns out w s :
  backend_answers out w → fst (upload_and_list out w s) = inr tt.
Proof.
  intros [Hupload [files Hfiles]]. unfold upload_and_list. unfold_script.
  rewrite Hfiles. destruct (uploaded_file w) as [file|]; [|done].
  destruct (Hupload file eq_refl) as [r ->]. simpl.
  by destruct (Nat.eqb (status_code r) 200).
Qed.

Lemma chat_header_rendered out w s :
  backend_answers out w → chat_header ∈ rendered (snd (chat_ui out w s)).
Proof.
  intros Hanswers. pose proof (upload_and_list_returns out w s Hanswers) as Hdone.
  unfold chat_ui. unfold mbind at 1, M_bind at 1, bind at 1.
  destruct (upload_and_list out w s) as [[e|[]] s1]; [done|].
  apply (rendered_through true).
  - unfold send. apply (rendered_first true).
    apply moves_if; [|apply moves_ret].
    apply moves_get. intros s2.
    apply steps_bind; [apply list_append_current|intros _].
    apply moves_bind; [apply moves_uncaught|intros response].
    apply moves_get. intros s3. apply list_append_current.
  - intros _.
    apply moves_bind; [apply moves_render|intros _].
    apply moves_bind; [apply save_chat_moves|intros _].
    apply moves_bind; [apply load_chat_moves|intros _].
    apply clear_chat_moves.
Qed.

(** *** Signing up, logging in and logging out *)

(** C4.  In a session that is not logged in: signing up with a username
    that is in the user store only renders an error, so the store, the
    stored hash of that username and the file users.json are as before
    and nobody is logged in; logging in with a username and password
    whose hash is not the hash stored for that username only renders
    the error about invalid credentials; logging in with a username of
    the store and a password whose hash equals the stored hash sets
    logged_in, records the username and renders the upload and search
    interface in the same run. *)
Theorem authentication_checks sha out w s :
  logged_in s = false →
  (auth_choice w = SignUp → clicked w = Some SignUpButton →
   is_Some (user_store s !! username_input w) →
   ∃ msg,
     script sha out w s
     = (inr tt, set_rendered [authentication_header; SidebarError msg; please_log_in] s)
     ∧ logged_in (run sha out w s) = false
     ∧ user_store (run sha out w s) = user_store s
     ∧ users_json (run sha out w s) = users_json s)
  ∧ (auth_choice w = Login → clicked w = Some LoginButton →
     user_store s !! username_input w ≠ Some (hash_password sha (password_input w)) →
     script sha out w s
     = (inr tt,
        set_rendered [authentication_header; SidebarError "❌ Invalid credentials.";
                      please_log_in] s)
     ∧ logged_in (run sha out w s) = false)
  ∧ (auth_choice w = Login → clicked w = Some LoginButton →
     user_store s !! username_input w = Some (hash_password sha (password_input w)) →
     logged_in (run sha out w s) = true
     ∧ username (run sha out w s) = username_input w
     ∧ upload_header ∈ rendered (run sha out w s)
     ∧ (backend_answers out w → chat_header ∈ rendered (run sha out w s))).
Proof.
  intros Hout. split; [|split].
  - intros Hchoice Hclick Htaken.
    destruct (truthy (username_input w) && truthy (password_input w)) eqn:Hfilled.
    + exists "⚠️ Username already exists!".
      assert (script sha out w s
              = (inr tt, set_rendered [authentication_header;
                                       SidebarError "⚠️ Username already exists!";
                                       please_log_in] s)) as Hrun.
      { apply script_rejected; [done|]. rewrite Hchoice.
        exact (sign_up_taken out w _ (set_rendered [authentication_header] s)
                 Hclick Hfilled Htaken). }
      unfold run. by rewrite Hrun.
    + exists "⚠️ Please enter a username and password.".
      assert (script sha out w s
              = (inr tt, set_rendered [authentication_header;
                                       SidebarError "⚠️ Please enter a username and password.";
                                       please_log_in] s)) as Hrun.
      { apply script_rejected; [done|]. rewrite Hchoice.
        refine (sign_up_incomplete out w _ (set_rendered [authentication_header] s)
                  Hclick _).
        apply andb_false_iff in Hfilled as [Hempty|Hempty];
          apply negb_false_iff, String.eqb_eq in Hempty; auto. }
      unfold run. by rewrite Hrun.
  - intros Hchoice Hclick Hwrong.
    assert (script sha out w s
            = (inr tt, set_rendered [authentication_header;
                                     SidebarError "❌ Invalid credentials.";
                                     please_log_in] s)) as Hrun.
    { apply script_rejected; [done|]. rewrite Hchoice.
      exact (login_rejected w _ (set_rendered [authentication_header] s) Hclick Hwrong). }
    unfold run. by rewrite Hrun.
  - intros Hchoice Hclick Hright. unfold run.
    rewrite (script_accepted sha out w s Hout Hchoice Hclick Hright).
    set (a := set_rendered _ _).
    pose proof (chat_steps_same_session true a _ (chat_ui_moves out w a))
      as (Hl & Hu & _ & _ & _).
    split; [by rewrite Hl|]. split; [by rewrite Hu|].
    split; [apply upload_header_rendered|apply chat_header_rendered].
Qed.

(** C9.  A click on Sign Up with an empty username or an empty password,
    in a session that is not logged in, only renders the error asking
    for both: no account is created, the user store and users.json are
    as before and nobody is logged in. *)
Theorem sign_up_needs_both sha out w s :
  logged_in s = false →
  auth_choice w = SignUp → clicked w = Some SignUpButton →
  username_input w = EmptyString ∨ password_input w = EmptyString →
  script sha out w s
  = (inr tt,
     set_rendered [authentication_header;
                   SidebarError "⚠️ Please enter a username and password.";
                   please_log_in] s)
  ∧ user_store (run sha out w s) = user_store s
  ∧ users_json (run sha out w s) = users_json s
  ∧ logged_in (run sha out w s) = false
  ∧ username (run sha out w s) = username s.
Proof.
  intros Hout Hchoice Hclick Hempty.
  assert (script sha out w s
          = (inr tt,
             set_rendered [authentication_header;
                           SidebarError "⚠️ Please enter a username and password.";
                           please_log_in] s)) as Hrun.
  { apply script_rejected; [done|]. rewrite Hchoice.
    exact (sign_up_incomplete out w _ (set_rendered [authentication_header] s)
             Hclick Hempty). }
  unfold run. by rewrite Hrun.
Qed.

(** The run started by a click on Logout. *)
Lemma script_logout sha out w s :
  logged_in s = true → clicked w = Some LogoutButton →
  script sha out w s
  = (inl RerunRequested,
     mkState false EmptyString (fresh (dom (heap s))) (chat_sessions s) (user_store s)
       (<[fresh (dom (heap s)) := []]> (heap s)) (users_json s)
       [authentication_header;
        SidebarSuccess ("👋 Welcome, " +:+ username s +:+ "!");
        SidebarWarning "You have logged out."]).
Proof.
  intros Hin Hclick. apply clicked_is_clicked in Hclick.
  destruct s as [li un ms cs us hp uj rd]. simpl in Hin. subst li.
  unfold script, authentication, logout. unfold_script. simpl. by rewrite Hclick.
Qed.

(** A run without a click in a session that is not logged in. *)
Lemma script_idle sha out w s :
  logged_in s = false → clicked w = None →
  script sha out w s = (inr tt, set_rendered [authentication_header; please_log_in] s).
Proof.
  intros Hout Hclick.
  pose proof (not_clicked w SignUpButton Hclick) as Hsign.
  pose proof (not_clicked w LoginButton Hclick) as Hlogin.
  destruct s as [li un ms cs us hp uj rd]. simpl in Hout. subst li.
  unfold script, authentication, sign_up, login. rewrite Hsign, Hlogin.
  unfold_script. simpl. by destruct (auth_choice w).
Qed.

(** C10.  A click on Logout sets logged_in to False, the username to
    the empty string and the messages to the empty list, and asks for a
    rerun; the chat sessions mapping, the user store and users.json are
    as before, and so are the messages saved under each session name.
    The rerun, a run without a click, keeps all of this. *)
Theorem logout_clears_session sha out out' w w' s :
  logged_in s = true → clicked w = Some LogoutButton → clicked w' = None →
  stop sha out w s = inl RerunRequested
  ∧ logged_out_of s (run sha out w s)
  ∧ logged_out_of s (run sha out' w' (run sha out w s)).
Proof.
  intros Hin Hclick Hidle.
  assert (logged_out_of s (run sha out w s)) as Hout.
  { unfold run. rewrite (script_logout sha out w s Hin Hclick).
    unfold logged_out_of, current_messages, saved_messages, deref. simpl.
    rewrite lookup_insert_eq. repeat split; try done.
    intros [_ Hsaved] name. destruct (chat_sessions s !! name) as [l|] eqn:Hl; [|done].
    simpl. destruct (Hsaved name l Hl) as [Hd _].
    by rewrite lookup_insert_ne by (apply not_eq_sym; by apply fresh_not_allocated). }
  split; [|split; [done|]].
  - unfold stop. by rewrite (script_logout sha out w s Hin Hclick).
  - destruct Hout as (Hl & Hrest).
    unfold run at 1. rewrite (script_idle sha out' w' _ Hl Hidle). by split.
Qed.

(** *** Whole runs *)

Lemma moves_chat saving {A} (m : Script A) :
  moves (chat_step saving) m → moves (step saving) m.
Proof.
  intros Hm s. eapply rtc_subrel; [|apply Hm]. intros ? ?. apply step_chat.
Qed.

Lemma moves_session saving (f : State → State) :
  (∀ s, heap (f s) = heap s ∧ messages (f s) = messages s
        ∧ chat_sessions (f s) = chat_sessions s) →
  moves (step saving) (modify f).
Proof.
  intros Hf s. apply rtc_once. destruct (Hf s) as (? & ? & ?). by apply step_session.
Qed.

Lemma sign_up_moves saving out w hashed : moves (step saving) (sign_up out w hashed).
Proof.
  unfold sign_up. apply moves_if; [|apply moves_ret].
  apply moves_if; [|apply moves_chat, moves_render].
  apply moves_get. intros s.
  destruct (user_store s !! username_input w); [apply moves_chat, moves_render|].
  apply steps_bind; [by apply moves_session|intros _].
  apply moves_get. intros s'. apply steps_bind.
  - unfold save_users. destruct (users_json_error out); [apply moves_raise|].
    by apply moves_session.
  - intros _. apply moves_bind; [by apply moves_session|intros _].
    apply moves_bind; [by apply moves_session|intros _].
    apply moves_chat, moves_render.
Qed.

Lemma login_moves saving w hashed : moves (step saving) (login w hashed).
Proof.
  unfold login. apply moves_if; [|apply moves_ret].
  apply moves_get. intros s.
  destruct (user_store s !! username_input w); [|apply moves_chat, moves_render].
  destruct (String.eqb _ _); [|apply moves_chat, moves_render].
  apply steps_bind; [by apply moves_session|intros _].
  apply moves_bind; [by apply moves_session|intros _].
  apply moves_chat, moves_render.
Qed.

Lemma logout_moves saving w : moves (step saving) (logout w).
Proof.
  unfold logout. apply moves_get. intros s.
  apply steps_bind; [apply moves_chat, moves_render|intros _].
  apply moves_if; [|apply moves_ret].
  apply moves_bind; [by apply moves_session|intros _].
  apply moves_bind; [by apply moves_session|intros _].
  apply moves_chat, new_messages_moves.
  apply moves_bind; [apply moves_render|intros _]. apply moves_raise.
Qed.

Lemma authentication_moves saving sha out w :
  moves (step saving) (authentication sha out w).
Proof.
  unfold authentication.
  apply moves_bind; [apply moves_chat, moves_render|intros _].
  apply moves_get. intros s. destruct (negb (logged_in s)).
  - destruct (auth_choice w); [apply login_moves|apply sign_up_moves].
  - apply logout_moves.
Qed.

Lemma script_moves_with saving sha out w :
  moves (chat_step saving) (chat_ui out w) → moves (step saving) (script sha out w).
Proof.
  intros Hchat. unfold script.
  apply moves_bind; [by apply moves_session|intros _].
  apply moves_bind; [apply authentication_moves|intros _].
  apply moves_get. intros s. destruct (logged_in s).
  - by apply moves_chat.
  - apply moves_chat, moves_render.
Qed.

Lemma run_steps sha out w s : rtc (step true) s (run sha out w s).
Proof. apply script_moves_with, chat_ui_moves. Qed.

Lemma run_steps_idle sha out w s :
  is_clicked w SaveChatButton = false → rtc (step false) s (run sha out w s).
Proof. intros Hw. by apply script_moves_with, chat_ui_idle. Qed.

(** Well-formedness is an invariant of the client. *)
Lemma new_session_wf file : wf (new_session file).
Proof.
  split; simpl.
  - apply elem_of_dom. rewrite lookup_singleton_eq. eauto.
  - intros name l Hl. by rewrite lookup_empty in Hl.
Qed.

Lemma run_wf sha out w s : wf s → wf (run sha out w s).
Proof. apply steps_wf with (saving := true), run_steps. Qed.

(** *** Saving and loading a chat *)

Lemma rendering_steps s s' : rtc rendering s s' → rendering s s'.
Proof.
  induction 1 as [s|s s1 s' [r ->] _ [r' ->]].
  - exists (rendered s). by destruct s.
  - by exists r'.
Qed.

Lemma render_rendering r : moves rendering (render r).
Proof. intros s. apply rtc_once. by eexists. Qed.

Lemma upload_and_list_rendering out w : moves rendering (upload_and_list out w).
Proof.
  unfold upload_and_list.
  apply moves_bind; [apply render_rendering|intros _].
  apply moves_bind.
  - destruct (uploaded_file w) as [file|]; [|apply moves_ret].
    apply moves_bind; [apply moves_uncaught|intros response].
    apply moves_if; apply render_rendering.
  - intros _. apply moves_bind; [apply render_rendering|intros _].
    apply moves_bind; [apply moves_uncaught|intros _]. apply moves_ret.
Qed.

Lemma send_rendering out w :
  is_clicked w SendButton = false → moves rendering (send out w).
Proof.
  intros Hw. unfold send. rewrite Hw. simpl.
  apply moves_bind; [apply render_rendering|intros _]. apply moves_ret.
Qed.

(** A run that was not stopped went through each of its parts. *)
Lemma bind_completed {A B} (m : Script A) (k : A → Script B) s b :
  fst ((m ≫= k) s) = inr b →
  ∃ a, fst (m s) = inr a ∧ (m ≫= k) s = k a (snd (m s)).
Proof.
  unfold mbind, M_bind, bind. destruct (m s) as [[e|a] s']; [done|]. eauto.
Qed.

(** The run of a logged-in user who does not click Logout is the chat
    interface after the welcome. *)
Lemma script_logged_in sha out w s :
  logged_in s = true → is_clicked w LogoutButton = false →
  script sha out w s
  = chat_ui out w
      (set_rendered [authentication_header;
                     SidebarSuccess ("👋 Welcome, " +:+ username s +:+ "!")] s).
Proof.
  intros Hin Hclick.
  destruct s as [li un ms cs us hp uj rd]. simpl in Hin. subst li.
  unfold script, authentication, logout. unfold_script. simpl. by rewrite Hclick.
Qed.

(** A completed run of the chat interface without a click on Send: up
    to Save Chat the run only renders. *)
Lemma chat_ui_completed out w s :
  is_clicked w SendButton = false →
  fst (chat_ui out w s) = inr tt →
  ∃ r, chat_ui out w s
       = (save_chat w;; load_chat w;; clear_chat w) (set_rendered r s).
Proof.
  intros Hsend Hdone. unfold chat_ui in *.
  apply bind_completed in Hdone as ([] & _ & Hrun). rewrite Hrun.
  pose proof (rendering_steps _ _ (upload_and_list_rendering out w s)) as [r1 Hr1].
  rewrite Hr1. clear Hrun Hr1.
  unfold send at 1. rewrite Hsend. simpl.
  unfold mbind at 1 2 3, M_bind at 1 2 3, bind at 1 2 3.
  unfold render, modify, mret, M_ret, ret. simpl. by eexists.
Qed.

Lemma snapshot_saved name l saved s :
  snapshot name l saved s → saved_messages s name = Some saved.
Proof.
  intros (Hname & Hl & _). unfold saved_messages, deref. by rewrite Hname; simpl; rewrite Hl.
Qed.

(** The first save stores a copy of the current messages under the
    name Session 1. *)
Lemma save_chat_first w s :
  is_clicked w SaveChatButton = true → chat_sessions s = ∅ → wf s →
  ∃ l, fst (save_chat w s) = inr tt
       ∧ snapshot "Session 1" l (current_messages s) (snd (save_chat w s)).
Proof.
  intros Hclick Hempty [Hcur _]. exists (fresh (dom (heap s))).
  unfold save_chat. rewrite Hclick. unfold_script. simpl.
  rewrite Hempty, map_size_empty. split; [done|].
  change ("Session " +:+ pretty (0 + 1)) with "Session 1".
  split; [|split]; simpl.
  - apply lookup_insert_eq.
  - apply lookup_insert_eq.
  - by apply fresh_not_allocated.
Qed.

(** Loading a saved session makes a copy of it the current list. *)
Lemma load_chat_snapshot w l saved s :
  truthy (selected_session w) = true →
  snapshot (selected_session w) l saved s →
  fst (load_chat w s) = inr tt
  ∧ current_messages (snd (load_chat w s)) = saved
  ∧ snapshot (selected_session w) l saved (snd (load_chat w s)).
Proof.
  intros Hsel Hsnap. split; [|split].
  - destruct Hsnap as (Hname & _). unfold load_chat. unfold_script.
    by rewrite Hsel, Hname.
  - destruct Hsnap as (Hname & Hl & _). unfold load_chat. unfold_script.
    rewrite Hsel, Hname. unfold current_messages, deref. simpl.
    by rewrite lookup_insert_eq, Hl.
  - eapply steps_snapshot; [|exact Hsnap].
    apply (moves_chat false), load_chat_moves.
Qed.

Lemma save_run sha out w s :
  wf s → logged_in s = true → chat_sessions s = ∅ →
  clicked w = Some SaveChatButton → stop sha out w s = inr tt →
  ∃ l, snapshot "Session 1" l (current_messages s) (run sha out w s).
Proof.
  intros Hwf Hin Hempty Hclick Hdone. unfold run, stop in *.
  rewrite (script_logged_in sha out w s Hin) in * by by eapply clicked_other.
  set (a := set_rendered _ s) in *.
  destruct (chat_ui_completed out w a) as [r Hrun];
    [by eapply clicked_other|done|].
  rewrite Hrun in *. clear Hrun.
  destruct (save_chat_first w (set_rendered r a)) as (l & Hsaved & Hsnap);
    [by apply clicked_is_clicked|done|exact Hwf|].
  exists l. apply bind_completed in Hdone as ([] & _ & ->).
  eapply steps_snapshot; [|exact Hsnap].
  apply (moves_chat false).
  apply moves_bind; [apply load_chat_moves|intros _]. apply clear_chat_moves.
Qed.

Lemma load_run sha out w l saved s :
  snapshot (selected_session w) l saved s → truthy (selected_session w) = true →
  logged_in s = true → clicked w = None → stop sha out w s = inr tt →
  current_messages (run sha out w s) = saved
  ∧ snapshot (selected_session w) l saved (run sha out w s).
Proof.
  intros Hsnap Hsel Hin Hclick Hdone. unfold run, stop in *.
  rewrite (script_logged_in sha out w s Hin) in * by by apply not_clicked.
  set (a := set_rendered _ s) in *.
  destruct (chat_ui_completed out w a) as [r Hrun]; [by apply not_clicked|done|].
  rewrite Hrun in *. clear Hrun Hdone.
  destruct (load_chat_snapshot w l saved (set_rendered r a) Hsel Hsnap)
    as (Hdone & Hcur & Hkept).
  unfold save_chat, clear_chat.
  rewrite (not_clicked w SaveChatButton Hclick), (not_clicked w ClearChatButton Hclick).
  unfold mbind, M_bind, bind, mret, M_ret, ret. simpl.
  destruct (load_chat w (set_rendered r a)) as [[e|[]] s']; simpl in *; done.
Qed.

(** Runs without a click on Save Chat keep a snapshot. *)
Lemma runs_snapshot sha name l saved (between : list (Outside * Widgets)) s :
  Forall (fun r => is_clicked r.2 SaveChatButton = false) between →
  snapshot name l saved s →
  snapshot name l saved (foldl (fun s r => run sha r.1 r.2 s) s between).
Proof.
  intros Hbetween. revert s.
  induction Hbetween as [|[out w] between Hw _ IH]; intros s Hsnap; [done|].
  simpl. apply IH. eapply steps_snapshot; [|exact Hsnap]. by apply run_steps_idle.
Qed.

(** C8.  The first save of a session stores the current messages under
    the name Session 1.  Whatever runs follow without another click on
    Save Chat, among them runs that append messages with Send, the
    messages saved under Session 1 stay those that were current at the
    save, and selecting Session 1 makes exactly that sequence current
    again, in a list object of its own. *)
Theorem saved_session_restores sha out_save w_save
    (between : list (Outside * Widgets)) out_load w_load s :
  wf s → logged_in s = true → chat_sessions s = ∅ →
  clicked w_save = Some SaveChatButton → stop sha out_save w_save s = inr tt →
  Forall (fun r => is_clicked r.2 SaveChatButton = false) between →
  let s1 := run sha out_save w_save s in
  let s2 := foldl (fun s r => run sha r.1 r.2 s) s1 between in
  let s3 := run sha out_load w_load s2 in
  logged_in s2 = true → clicked w_load = None →
  selected_session w_load = "Session 1" → stop sha out_load w_load s2 = inr tt →
  saved_messages s1 "Session 1" = Some (current_messages s)
  ∧ saved_messages s2 "Session 1" = Some (current_messages s)
  ∧ current_messages s3 = current_messages s
  ∧ saved_messages s3 "Session 1" = Some (current_messages s)
  ∧ chat_sessions s3 !! "Session 1" ≠ Some (messages s3).
Proof.
  intros Hwf Hin Hempty Hsave Hsaved Hbetween s1 s2 s3 Hin2 Hidle Hsel Hloaded.
  destruct (save_run sha out_save w_save s Hwf Hin Hempty Hsave Hsaved) as [l Hsnap1].
  fold s1 in Hsnap1.
  pose proof (runs_snapshot sha _ _ _ between s1 Hbetween Hsnap1) as Hsnap2.
  fold s2 in Hsnap2. rewrite <- Hsel in Hsnap2.
  destruct (load_run sha out_load w_load l _ s2 Hsnap2) as [Hcur Hsnap3];
    [by rewrite Hsel|done..|].
  fold s3 in Hcur, Hsnap3. rewrite Hsel in Hsnap2, Hsnap3.
  split; [by eapply snapshot_saved|]. split; [by eapply snapshot_saved|].
  split; [done|]. split; [by eapply snapshot_saved|].
  destruct Hsnap3 as (Hname & _ & Hne). rewrite Hname. congruence.
Qed.

(** *** Instances on a small session *)

Lemma authentication_checks_witness :
  logged_in registered = false
  ∧ user_store (run toy_hash online sign_up_ann registered) = user_store registered
  ∧ logged_in (run toy_hash online (log_in "ann" "guess") registered) = false
  ∧ logged_in (run toy_hash online (log_in "ann" "pw") registered) = true.
Proof.
  split; [reflexivity|].
  destruct (authentication_checks toy_hash online sign_up_ann registered eq_refl)
    as (Hsign & _ & _).
  destruct (authentication_checks toy_hash online (log_in "ann" "guess") registered eq_refl)
    as (_ & Hwrong & _).
  destruct (authentication_checks toy_hash online (log_in "ann" "pw") registered eq_refl)
    as (_ & _ & Hright).
  split; [|split].
  - destruct (Hsign eq_refl eq_refl) as (msg & _ & _ & Hstore & _); [|exact Hstore].
    vm_compute. eauto.
  - apply Hwrong; [reflexivity..|]. vm_compute. discriminate.
  - apply Hright; reflexivity.
Defined.

Lemma sign_up_needs_both_witness :
  logged_in (new_session None) = false
  ∧ user_store (run toy_hash online
                  (mkWidgets SignUp "ann" EmptyString (Some SignUpButton) None EmptyString EmptyString)
                  (new_session None))
    = user_store (new_session None).
Proof.
  split; [reflexivity|].
  apply (sign_up_needs_both toy_hash online
           (mkWidgets SignUp "ann" EmptyString (Some SignUpButton) None EmptyString EmptyString)
           (new_session None));
    [reflexivity..|]. right. reflexivity.
Defined.

Lemma logout_clears_session_witness :
  logged_in ann_chatting = true
  ∧ logged_out_of ann_chatting
      (run toy_hash online idle (run toy_hash online (click LogoutButton) ann_chatting)).
Proof.
  split; [reflexivity|].
  apply (logout_clears_session toy_hash online online (click LogoutButton) idle
           ann_chatting); reflexivity.
Defined.

Lemma saved_session_restores_witness :
  current_messages
    (run toy_hash online (select_session "Session 1")
       (run toy_hash online (ask "more")
          (run toy_hash online (click SaveChatButton) ann_chatting)))
  = current_messages ann_chatting.
Proof.
  apply (saved_session_restores toy_hash online (click SaveChatButton)
           [(online, ask "more")] online (select_session "Session 1") ann_chatting).
  - apply run_wf, run_wf, new_session_wf.
  - reflexivity.
  - reflexivity.
  - reflexivity.
  - reflexivity.
  - repeat constructor.
  - reflexivity.
  - reflexivity.
  - reflexivity.
  - reflexivity.
Defined.

(** *** Creating an account *)

Lemma is_clicked_true w b : is_clicked w b = true → clicked w = Some b.
Proof. unfold is_clicked. destruct (clicked w) as [[]|], b; done. Qed.

Lemma sign_up_created out w hashed s :
  is_clicked w SignUpButton = true →
  truthy (username_input w) && truthy (password_input w) = true →
  user_store s !! username_input w = None →
  users_json_error out = None →
  sign_up out w hashed s
  = (inr tt,
     set_rendered (rendered s ++ [SidebarSuccess "🎉 Account created! Logged in."])
       (set_username (username_input w)
          (set_logged_in true
             (set_users_json (Some (<[username_input w := hashed]> (user_store s)))
                (set_user_store (<[username_input w := hashed]> (user_store s)) s))))).
Proof.
  intros Hclick Hfilled Hfree Hdisk. unfold sign_up, save_users.
  rewrite Hclick, Hfilled, Hdisk. unfold_script. by rewrite Hfree.
Qed.

Lemma sign_up_unwritten out w hashed s e :
  is_clicked w SignUpButton = true →
  truthy (username_input w) && truthy (password_input w) = true →
  user_store s !! username_input w = None →
  users_json_error out = Some e →
  sign_up out w hashed s
  = (inl (Uncaught e),
     set_user_store (<[username_input w := hashed]> (user_store s)) s).
Proof.
  intros Hclick Hfilled Hfree Hdisk. unfold sign_up, save_users.
  rewrite Hclick, Hfilled, Hdisk. unfold_script. by rewrite Hfree.
Qed.

Lemma filled_truthy w :
  username_input w ≠ EmptyString → password_input w ≠ EmptyString →
  truthy (username_input w) && truthy (password_input w) = true.
Proof.
  intros Hu Hp. unfold truthy. apply andb_true_iff.
  split; apply negb_true_iff, String.eqb_neq; done.
Qed.

(** The run of an accepted sign-up goes on with the chat interface. *)
Lemma script_signed_up sha out w s :
  logged_in s = false → auth_choice w = SignUp → clicked w = Some SignUpButton →
  username_input w ≠ EmptyString → password_input w ≠ EmptyString →
  user_store s !! username_input w = None →
  users_json_error out = None →
  script sha out w s
  = chat_ui out w
      (set_rendered [authentication_header; SidebarSuccess "🎉 Account created! Logged in."]
         (set_username (username_input w)
            (set_logged_in true
               (set_users_json
                  (Some (<[username_input w := hash_password sha (password_input w)]>
                           (user_store s)))
                  (set_user_store
                     (<[username_input w := hash_password sha (password_input w)]>
                        (user_store s)) s))))).
Proof.
  intros Hout Hchoice Hclick Hu Hp Hfree Hdisk.
  pose proof (sign_up_created out w (hash_password sha (password_input w))
                (set_rendered [authentication_header] s)
                (clicked_is_clicked _ _ Hclick) (filled_truthy w Hu Hp) Hfree Hdisk)
    as Hsign.
  destruct s as [li un ms cs us hp uj rd]. simpl in Hout. subst li.
  unfold script, authentication. rewrite Hchoice. unfold_script.
  unfold set_rendered, set_username, set_logged_in, set_users_json, set_user_store in *.
  simpl in *. by rewrite Hsign.
Qed.

(** X10.  A sign-up with a non-empty username that is not in the store
    and a non-empty password, when users.json can be written: the store
    gains the username with the hash of the password, users.json holds
    the whole store of the session, and the user is logged in under
    that username in the same run. *)
Theorem sign_up_creates_account sha out w s :
  logged_in s = false → auth_choice w = SignUp → clicked w = Some SignUpButton →
  username_input w ≠ EmptyString → password_input w ≠ EmptyString →
  user_store s !! username_input w = None →
  users_json_error out = None →
  user_store (run sha out w s)
  = <[username_input w := hash_password sha (password_input w)]> (user_store s)
  ∧ users_json (run sha out w s) = Some (user_store (run sha out w s))
  ∧ logged_in (run sha out w s) = true
  ∧ username (run sha out w s) = username_input w
  ∧ upload_header ∈ rendered (run sha out w s).
Proof.
  intros Hout Hchoice Hclick Hu Hp Hfree Hdisk. unfold run.
  rewrite (script_signed_up sha out w s) by done.
  set (a := set_rendered _ _).
  pose proof (chat_steps_same_session true a _ (chat_ui_moves out w a))
    as (Hl & Hn & Hs & Hj & _).
  rewrite Hl, Hn, Hs, Hj. repeat split; try done. apply upload_header_rendered.
Qed.

Lemma sign_up_creates_account_witness :
  user_store (run toy_hash online sign_up_ann (new_session None))
  = <[ "ann" := toy_hash "pw" ]> (user_store (new_session None)).
Proof.
  apply (sign_up_creates_account toy_hash online sign_up_ann (new_session None));
    try reflexivity; discriminate.
Defined.

(** X11.  When [save_users] raises during a sign-up, the run stops with
    that exception after line 56 and before line 58: the account is in
    the user store of the session, and the user is not logged in and
    has no username set. *)
Theorem sign_up_unwritten_account sha out w s e :
  logged_in s = false → auth_choice w = SignUp → clicked w = Some SignUpButton →
  username_input w ≠ EmptyString → password_input w ≠ EmptyString →
  user_store s !! username_input w = None →
  users_json_error out = Some e →
  stop sha out w s = inl (Uncaught e)
  ∧ user_store (run sha out w s)
    = <[username_input w := hash_password sha (password_input w)]> (user_store s)
  ∧ logged_in (run sha out w s) = false
  ∧ username (run sha out w s) = username s.
Proof.
  intros Hout Hchoice Hclick Hu Hp Hfree Hdisk.
  pose proof (sign_up_unwritten out w (hash_password sha (password_input w))
                (set_rendered [authentication_header] s) e
                (clicked_is_clicked _ _ Hclick) (filled_truthy w Hu Hp) Hfree Hdisk)
    as Hsign.
  assert (script sha out w s
          = (inl (Uncaught e),
             set_rendered [authentication_header]
               (set_user_store
                  (<[username_input w := hash_password sha (password_input w)]>
                     (user_store s)) s))) as Hrun.
  { destruct s as [li un ms cs us hp uj rd]. simpl in Hout. subst li.
    unfold script, authentication. rewrite Hchoice. unfold_script.
    unfold set_rendered, set_user_store in *. simpl in *. by rewrite Hsign. }
  unfold stop, run. by rewrite Hrun.
Qed.

Lemma sign_up_unwritten_account_witness :
  logged_in (run toy_hash read_only_disk sign_up_ann (new_session None)) = false
  ∧ user_store (run toy_hash read_only_disk sign_up_ann (new_session None))
    = <[ "ann" := toy_hash "pw" ]> (user_store (new_session None)).
Proof.
  destruct (sign_up_unwritten_account toy_hash read_only_disk sign_up_ann
              (new_session None)
              (Exception "[Errno 13] Permission denied: 'users.json'"))
    as (_ & Hstore & Hlogged & _); try reflexivity; try discriminate.
  split; [exact Hlogged|exact Hstore].
Defined.

(** An accepted login, whatever the backend does afterwards. *)
Lemma login_run sha out w s :
  logged_in s = false → auth_choice w = Login → clicked w = Some LoginButton →
  user_store s !! username_input w = Some (hash_password sha (password_input w)) →
  logged_in (run sha out w s) = true ∧ username (run sha out w s) = username_input w.
Proof.
  intros Hout Hchoice Hclick Hstored. unfold run.
  rewrite (script_accepted sha out w s Hout Hchoice Hclick Hstored).
  set (a := set_rendered _ _).
  pose proof (chat_steps_same_session true a _ (chat_ui_moves out w a))
    as (Hl & Hn & _).
  by rewrite Hl, Hn.
Qed.

(** X12.  An account created by a sign-up survives a restart of the
    client: a new session that loads the users.json left by the sign-up
    accepts a login with the same username and password. *)
Theorem account_survives_restart sha out out' w w' s :
  logged_in s = false → auth_choice w = SignUp → clicked w = Some SignUpButton →
  username_input w ≠ EmptyString → password_input w ≠ EmptyString →
  user_store s !! username_input w = None →
  users_json_error out = None →
  auth_choice w' = Login → clicked w' = Some LoginButton →
  username_input w' = username_input w → password_input w' = password_input w →
  logged_in (run sha out' w' (new_session (users_json (run sha out w s)))) = true
  ∧ username (run sha out' w' (new_session (users_json (run sha out w s))))
    = username_input w.
Proof.
  intros Hout Hchoice Hclick Hu Hp Hfree Hdisk Hchoice' Hclick' Hsame_u Hsame_p.
  assert (users_json (run sha out w s)
          = Some (<[username_input w := hash_password sha (password_input w)]>
                    (user_store s))) as ->.
  { unfold run. rewrite (script_signed_up sha out w s) by done.
    set (a := set_rendered _ _).
    by pose proof (chat_steps_same_session true a _ (chat_ui_moves out w a))
      as (_ & _ & _ & -> & _). }
  rewrite <- Hsame_u. apply login_run; try done.
  simpl. rewrite Hsame_u, Hsame_p. apply lookup_insert_eq.
Qed.

Lemma account_survives_restart_witness :
  logged_in (run toy_hash online (log_in "ann" "pw")
               (new_session (users_json (run toy_hash online sign_up_ann
                                           (new_session None)))))
  = true.
Proof.
  apply (account_survives_restart toy_hash online online sign_up_ann (log_in "ann" "pw")
           (new_session None)); try reflexivity; discriminate.
Defined.

(** *** Invariants of whole runs *)

Lemma moves_sub (R R' : State → State → Prop) {A} (m : Script A) :
  (∀ s s', R s s' → R' s s') → moves R m → moves R' m.
Proof. intros Hsub Hm s. eapply rtc_subrel; [|apply Hm]. exact Hsub. Qed.

Lemma moves_modify (R : State → State → Prop) (f : State → State) :
  (∀ s, R s (f s)) → moves R (modify f).
Proof. intros Hf s. apply rtc_once, Hf. Qed.

Lemma rtc_keeps I s s' : rtc (keeps I) s s' → I s → I s'.
Proof. induction 1 as [|s s1 s' Hstep _ IH]; [done|]. intros Hs. by apply IH, Hstep. Qed.

Lemma rtc_store_grows s s' : rtc store_grows s s' → user_store s ⊆ user_store s'.
Proof.
  induction 1 as [|s s1 s' Hstep _ IH]; [done|]. unfold store_grows in Hstep. by etrans.
Qed.

(** A run moves along a relation that holds of the transitions of the
    chat, of the changes to the login state, of the sign-up and of the
    save. *)
Lemma script_moves_rel (R : State → State → Prop) sha out w :
  (∀ s s', chat_step false s s' → R s s') →
  (∀ s b, R s (set_logged_in b s)) →
  (∀ s u, R s (set_username u s)) →
  (∀ s r, R s (set_rendered r s)) →
  moves R (sign_up out w (hash_password sha (password_input w))) →
  moves R (save_chat w) →
  moves R (script sha out w).
Proof.
  intros Hchat Hlogged Hname Hrendered Hsign Hsave.
  assert (∀ A (m : Script A), moves (chat_step false) m → moves R m) as Hsub.
  { intros A m. by apply moves_sub. }
  unfold script.
  apply moves_bind; [by apply moves_modify|intros _].
  apply moves_bind.
  - unfold authentication.
    apply moves_bind; [apply Hsub, moves_render|intros _].
    apply moves_get. intros s. destruct (negb (logged_in s)).
    + destruct (auth_choice w); [|apply Hsign].
      unfold login. apply moves_if; [|apply moves_ret].
      apply moves_get. intros s0.
      destruct (user_store s0 !! username_input w); [|apply Hsub, moves_render].
      destruct (String.eqb _ _); [|apply Hsub, moves_render].
      apply steps_bind; [by apply moves_modify|intros _].
      apply moves_bind; [by apply moves_modify|intros _].
      apply Hsub, moves_render.
    + unfold logout. apply moves_get. intros s0.
      apply steps_bind; [apply Hsub, moves_render|intros _].
      apply moves_if; [|apply moves_ret].
      apply moves_bind; [by apply moves_modify|intros _].
      apply moves_bind; [by apply moves_modify|intros _].
      apply Hsub, new_messages_moves.
      apply moves_bind; [apply moves_render|intros _]. apply moves_raise.
  - intros _. apply moves_get. intros s. destruct (logged_in s).
    + unfold chat_ui.
      apply moves_bind; [apply Hsub, upload_and_list_moves|intros _].
      apply moves_bind; [apply Hsub, send_moves|intros _].
      apply moves_bind; [apply Hsub, moves_render|intros _].
      apply moves_bind; [exact Hsave|intros _].
      apply moves_bind; [apply Hsub, load_chat_moves|intros _].
      apply Hsub, clear_chat_moves.
    + apply Hsub, moves_render.
Qed.

Lemma chat_step_user_store saving s s' :
  chat_step saving s s' → user_store s' = user_store s ∧ users_json s' = users_json s.
Proof. by destruct 1. Qed.

(** X13.  No run removes an account or changes the hash stored for a
    username: the user store after a run contains the user store of
    before. *)
Theorem accounts_are_kept sha out w s :
  user_store s ⊆ user_store (run sha out w s).
Proof.
  apply rtc_store_grows. apply script_moves_rel; unfold store_grows; try done.
  - intros s0 s' Hstep. by destruct (chat_step_user_store _ _ _ Hstep) as [-> _].
  - intros s0. apply rtc_once. unfold sign_up, save_users. unfold_script.
    destruct (is_clicked w SignUpButton); [|done].
    destruct (truthy (username_input w) && truthy (password_input w)); [|done].
    destruct (user_store s0 !! username_input w) eqn:Hfree; [done|].
    destruct (users_json_error out); simpl; by apply insert_subseteq.
  - apply (moves_sub (chat_step true)); [|apply save_chat_moves].
    intros s0 s' Hstep. by destruct (chat_step_user_store _ _ _ Hstep) as [-> _].
Qed.

(** X14.  A run in which users.json can be written keeps the agreement
    of the session with the file: when the user store in memory is what
    [load_users] would read from users.json before the run, it is so
    after the run, whatever the run does, a sign-up included. *)
Theorem users_file_agrees sha out w s :
  users_json_error out = None → agree s → agree (run sha out w s).
Proof.
  intros Hdisk. apply rtc_keeps. apply script_moves_rel; unfold keeps, agree; try done.
  - intros s0 s' Hstep. by destruct (chat_step_user_store _ _ _ Hstep) as [-> ->].
  - intros s0. apply rtc_once. unfold sign_up, save_users. rewrite Hdisk. unfold_script.
    destruct (is_clicked w SignUpButton); [|done].
    destruct (truthy (username_input w) && truthy (password_input w)); [|done].
    by destruct (user_store s0 !! username_input w).
  - apply (moves_sub (chat_step true)); [|apply save_chat_moves].
    intros s0 s' Hstep. by destruct (chat_step_user_store _ _ _ Hstep) as [-> ->].
Qed.

Lemma users_file_agrees_witness :
  agree registered ∧ agree (run toy_hash online sign_up_ann (new_session None)).
Proof.
  split; [reflexivity|].
  apply (users_file_agrees toy_hash online sign_up_ann (new_session None));
    reflexivity.
Defined.

(** *** Saved sessions *)

Lemma saved_same s s' :
  chat_sessions s' = chat_sessions s →
  (∀ name l, chat_sessions s !! name = Some l → heap s' !! l = heap s !! l) →
  ∀ name, saved_messages s' name = saved_messages s name.
Proof.
  intros Hc Hh name. unfold saved_messages, deref. rewrite Hc.
  destruct (chat_sessions s !! name) as [l|] eqn:Hl; [|done]. simpl.
  by rewrite (Hh name l Hl).
Qed.

(** A transition other than a save keeps the sessions and their lists. *)
Lemma step_saved s s' :
  step false s s' → wf s →
  chat_sessions s' = chat_sessions s
  ∧ ∀ name, saved_messages s' name = saved_messages s name.
Proof.
  intros Hstep [Hcur Hsaved]. destruct Hstep as [s s' Hchat|s s' Hh Hm Hc].
  - destruct Hchat as [s r|s x|s xs|s name' xs Hsaving].
    + split; [done|]. by apply saved_same.
    + split; [done|]. apply saved_same; [done|]. intros name l Hl. simpl.
      destruct (Hsaved name l Hl) as [_ Hne]. by rewrite lookup_insert_ne.
    + split; [done|]. apply saved_same; [done|]. intros name l Hl. simpl.
      destruct (Hsaved name l Hl) as [Hd _].
      rewrite lookup_insert_ne; [done|]. apply not_eq_sym. by apply fresh_not_allocated.
    + discriminate.
  - split; [done|]. apply saved_same; [done|]. intros name l _. by rewrite Hh.
Qed.

Lemma steps_saved s s' :
  rtc (step false) s s' → wf s →
  chat_sessions s' = chat_sessions s
  ∧ ∀ name, saved_messages s' name = saved_messages s name.
Proof.
  induction 1 as [|s s1 s' Hstep _ IH]; [done|]. intros Hwf.
  destruct (step_saved s s1 Hstep Hwf) as [Hc Hs].
  destruct IH as [Hc' Hs']; [by eapply step_wf|].
  split; [by rewrite Hc'|]. intros name. by rewrite Hs'.
Qed.

(** X15.  A run without a click on Save Chat changes no saved session:
    the same names are saved, each with the same messages, whatever
    else the run does (sending, loading, clearing, logging in or out). *)
Theorem saved_sessions_kept sha out w s :
  wf s → is_clicked w SaveChatButton = false →
  chat_sessions (run sha out w s) = chat_sessions s
  ∧ ∀ name, saved_messages (run sha out w s) name = saved_messages s name.
Proof. intros Hwf Hidle. apply steps_saved; [|done]. by apply run_steps_idle. Qed.

Lemma saved_sessions_kept_witness :
  saved_messages
    (run toy_hash online (click ClearChatButton)
       (run toy_hash online (click SaveChatButton) ann_chatting)) "Session 1"
  = saved_messages (run toy_hash online (click SaveChatButton) ann_chatting) "Session 1".
Proof.
  apply (saved_sessions_kept toy_hash online (click ClearChatButton)
           (run toy_hash online (click SaveChatButton) ann_chatting)).
  - apply run_wf, run_wf, run_wf, new_session_wf.
  - reflexivity.
Defined.

(** X16.  In every state reached from a new session the current message
    list and the saved lists are list objects that exist, and no saved
    session is the very list object of the current messages: saving and
    loading copy. *)
Theorem reachable_wf sha file rs : wf (runs sha rs (new_session file)).
Proof.
  unfold runs. pose proof (new_session_wf file) as Hnew.
  revert Hnew. generalize (new_session file).
  induction rs as [|[out w] rs IH]; intros s Hs; [done|].
  simpl. apply IH. by apply run_wf.
Qed.

(** The save keeps the naming of the sessions. *)
Lemma save_chat_named w : moves (keeps sessions_named) (save_chat w).
Proof.
  intros s. apply rtc_once. intros Hnamed. unfold save_chat.
  destruct (is_clicked w SaveChatButton); [|done]. unfold_script. simpl.
  set (n := size (chat_sessions s)).
  assert (chat_sessions s !! ("Session " +:+ pretty (n + 1)) = None) as Hfree.
  { apply eq_None_not_Some. intros [k [Hk Heq]]%Hnamed.
    apply (inj (String.app "Session ")), (inj pretty) in Heq. fold n in Hk. lia. }
  intros name. simpl. rewrite map_size_insert_None by done. fold n.
  rewrite lookup_insert. case_decide as Hname.
  - subst name. split; [|eauto]. intros _. exists (n + 1). split; [lia|done].
  - rewrite (Hnamed name). fold n. split.
    + intros (k & Hk & ->). exists k. split; [lia|done].
    + intros (k & Hk & ->). exists k. split; [|done].
      destruct (decide (k = n + 1)) as [->|]; [done|lia].
Qed.

Lemma run_named sha out w s : sessions_named s → sessions_named (run sha out w s).
Proof.
  apply rtc_keeps. apply script_moves_rel; unfold keeps; try done.
  - intros s0 s' Hstep.
    assert (chat_sessions s' = chat_sessions s0) as Hc by by destruct Hstep.
    unfold sessions_named. by rewrite Hc.
  - apply (moves_sub (step false)); [|apply sign_up_moves].
    intros s0 s' Hstep.
    assert (chat_sessions s' = chat_sessions s0) as Hc.
    { destruct Hstep as [? ? Hchat|]; [by destruct Hchat|done]. }
    unfold sessions_named. by rewrite Hc.
  - apply save_chat_named.
Qed.

Lemma new_session_named file : sessions_named (new_session file).
Proof.
  intros name. simpl. rewrite lookup_empty, map_size_empty. split.
  - by intros [? ?].
  - intros (k & Hk & _). lia.
Qed.

(** X17.  In every state reached from a new session, the saved sessions
    are named Session 1 to Session n, where n is their number, so the
    name that Save Chat makes from the number of sessions is never the
    name of a session that exists. *)
Theorem reachable_sessions_named sha file rs :
  sessions_named (runs sha rs (new_session file))
  ∧ chat_sessions (runs sha rs (new_session file))
      !! ("Session " +:+ pretty (size (chat_sessions (runs sha rs (new_session file))) + 1))
    = None.
Proof.
  assert (sessions_named (runs sha rs (new_session file))) as Hnamed.
  { unfold runs. pose proof (new_session_named file) as Hnew.
    revert Hnew. generalize (new_session file).
    induction rs as [|[out w] rs IH]; intros s Hs; [done|].
    simpl. apply IH. by apply run_named. }
  split; [done|].
  apply eq_None_not_Some. intros [k [Hk Heq]]%Hnamed.
  apply (inj (String.app "Session ")), (inj pretty) in Heq. lia.
Qed.

Lemma save_chat_effect w s :
  is_clicked w SaveChatButton = true →
  save_chat w s
  = (inr tt,
     set_rendered
       (rendered s ++ [SidebarSuccess ("Chat saved as: " +:+ "Session "
                                        +:+ pretty (size (chat_sessions s) + 1))])
       (set_chat_sessions
          (<["Session " +:+ pretty (size (chat_sessions s) + 1) := fresh (dom (heap s))]>
             (chat_sessions s))
          (set_heap (<[fresh (dom (heap s)) := deref s (messages s)]> (heap s)) s))).
Proof. intros Hclick. unfold save_chat. rewrite Hclick. by unfold_script. Qed.

Lemma named_next_free s :
  sessions_named s →
  chat_sessions s !! ("Session " +:+ pretty (size (chat_sessions s) + 1)) = None.
Proof.
  intros Hnamed. apply eq_None_not_Some. intros [k [Hk Heq]]%Hnamed.
  apply (inj (String.app "Session ")), (inj pretty) in Heq. lia.
Qed.

(** X18.  A completed run started by Save Chat, in a state whose
    sessions are named Session 1 to Session n: there is one session
    more, the new session Session n+1 holds the messages that were
    current, and every session saved before holds the messages it held:
    a save never overwrites. *)
Theorem save_adds_session sha out w s :
  wf s → sessions_named s → logged_in s = true →
  clicked w = Some SaveChatButton → stop sha out w s = inr tt →
  size (chat_sessions (run sha out w s)) = S (size (chat_sessions s))
  ∧ saved_messages (run sha out w s)
      ("Session " +:+ pretty (size (chat_sessions s) + 1))
    = Some (current_messages s)
  ∧ ∀ name, is_Some (chat_sessions s !! name) →
            saved_messages (run sha out w s) name = saved_messages s name.
Proof.
  intros Hwf Hnamed Hin Hclick Hdone. unfold run, stop in *.
  rewrite (script_logged_in sha out w s Hin) in * by by eapply clicked_other.
  set (a := set_rendered _ s) in *.
  destruct (chat_ui_completed out w a) as [r Hrun];
    [by eapply clicked_other|done|].
  rewrite Hrun in *. clear Hrun.
  set (b := set_rendered r a) in *.
  pose proof (save_chat_effect w b (clicked_is_clicked _ _ Hclick)) as Hsave.
  set (c := set_rendered _ _) in Hsave.
  assert (wf c) as Hwfc.
  { pose proof (moves_chat true (save_chat w) (save_chat_moves w) b) as Hmoves.
    rewrite Hsave in Hmoves. by apply (steps_wf true b c Hmoves). }
  apply bind_completed in Hdone as ([] & _ & ->). rewrite Hsave. simpl.
  destruct (steps_saved c (snd ((load_chat w;; clear_chat w) c))) as [Hc Hs]; [|done|].
  { apply (moves_chat false).
    apply moves_bind; [apply load_chat_moves|intros _]. apply clear_chat_moves. }
  pose proof (named_next_free s Hnamed) as Hfree.
  rewrite Hc. split; [|split].
  - simpl. by rewrite map_size_insert_None.
  - rewrite Hs. unfold saved_messages, c, b, a. simpl.
    rewrite lookup_insert_eq. simpl. unfold deref at 1. simpl.
    by rewrite lookup_insert_eq.
  - intros name [l Hl]. rewrite Hs. unfold saved_messages, deref, c, b, a. simpl.
    destruct Hwf as [_ Hsaved]. destruct (Hsaved name l Hl) as [Hd _].
    rewrite lookup_insert_ne by (intros <-; by rewrite Hfree in Hl).
    rewrite Hl. simpl.
    by rewrite lookup_insert_ne by (apply not_eq_sym; by apply fresh_not_allocated).
Qed.

Lemma save_adds_session_witness :
  size (chat_sessions
          (run toy_hash online (click SaveChatButton)
             (run toy_hash online (click SaveChatButton) ann_chatting)))
  = S (size (chat_sessions (run toy_hash online (click SaveChatButton) ann_chatting))).
Proof.
  apply (save_adds_session toy_hash online (click SaveChatButton)
           (run toy_hash online (click SaveChatButton) ann_chatting)).
  - apply run_wf, run_wf, run_wf, new_session_wf.
  - apply run_named, run_named, run_named, new_session_named.
  - reflexivity.
  - reflexivity.
  - reflexivity.
Defined.

(** *** Sending a question *)

(** Once the upload and the file list are answered, the chat goes on. *)
Lemma chat_ui_after_upload out w s :
  backend_answers out w →
  ∃ r, chat_ui out w s
       = (send out w;; render (SidebarHeader "💾 Chat Sessions");;
          save_chat w;; load_chat w;; clear_chat w) (set_rendered r s).
Proof.
  intros Hanswers.
  pose proof (upload_and_list_returns out w s Hanswers) as Hdone.
  pose proof (rendering_steps _ _ (upload_and_list_rendering out w s)) as [r Hr].
  exists r. unfold chat_ui. unfold mbind at 1, M_bind at 1, bind at 1.
  destruct (upload_and_list out w s) as [[e|[]] s1]; simpl in *; [done|].
  by subst s1.
Qed.

(** X19.  A run started by Send with a question, nothing selected in
    the session select box and a backend that answers: the current
    messages are those of before followed by the question, from the
    user, and by the answer, from the bot.  The answer is the field
    answer of a 200 response, and the fixed error text otherwise. *)
Theorem send_appends_question_and_answer sha out w s response :
  logged_in s = true → clicked w = Some SendButton →
  user_input w ≠ EmptyString → selected_session w = EmptyString →
  backend_answers out w → get_search out (user_input w) = inr response →
  stop sha out w s = inr tt
  ∧ current_messages (run sha out w s)
    = current_messages s
      ++ [("🧑 You", user_input w); ("🤖 Bot", answer_of response)].
Proof.
  intros Hin Hclick Hinput Hsel Hanswers Hsearch. unfold stop, run.
  rewrite (script_logged_in sha out w s Hin) by by eapply clicked_other.
  set (a := set_rendered _ s).
  destruct (chat_ui_after_upload out w a Hanswers) as [r ->].
  unfold send, save_chat, load_chat, clear_chat.
  rewrite (clicked_is_clicked _ _ Hclick), Hsel.
  rewrite (clicked_other w SendButton SaveChatButton Hclick) by done.
  rewrite (clicked_other w SendButton ClearChatButton Hclick) by done.
  assert (truthy (user_input w) = true) as ->
    by by apply negb_true_iff, String.eqb_neq.
  unfold_script. rewrite Hsearch. simpl. split; [done|].
  unfold current_messages, deref. simpl.
  rewrite !lookup_insert_eq. simpl. by rewrite <- app_assoc.
Qed.

Lemma send_appends_question_and_answer_witness :
  current_messages (run toy_hash online (ask "more") ann_chatting)
  = current_messages ann_chatting ++ [("🧑 You", "more"); ("🤖 Bot", "about more")].
Proof.
  apply (send_appends_question_and_answer toy_hash online (ask "more") ann_chatting
           (Backend.search_result [] "about more")); try reflexivity.
  - discriminate.
  - split; [intros file; discriminate|]. by eexists.
Defined.

(** X20.  When the search request itself raises, the run stops there:
    the question is in the chat, without an answer after it. *)
Theorem send_without_answer sha out w s e :
  logged_in s = true → clicked w = Some SendButton →
  user_input w ≠ EmptyString →
  backend_answers out w → get_search out (user_input w) = inl e →
  stop sha out w s = inl (Uncaught e)
  ∧ current_messages (run sha out w s)
    = current_messages s ++ [("🧑 You", user_input w)].
Proof.
  intros Hin Hclick Hinput Hanswers Hsearch. unfold stop, run.
  rewrite (script_logged_in sha out w s Hin) by by eapply clicked_other.
  set (a := set_rendered _ s).
  destruct (chat_ui_after_upload out w a Hanswers) as [r ->].
  unfold send. rewrite (clicked_is_clicked _ _ Hclick).
  assert (truthy (user_input w) = true) as ->
    by by apply negb_true_iff, String.eqb_neq.
  unfold_script. rewrite Hsearch. simpl. split; [done|].
  unfold current_messages, deref. simpl. by rewrite lookup_insert_eq.
Qed.

Lemma send_without_answer_witness :
  current_messages (run toy_hash search_down (ask "more") ann_chatting)
  = current_messages ann_chatting ++ [("🧑 You", "more")].
Proof.
  apply (send_without_answer toy_hash search_down (ask "more") ann_chatting
           (Exception "Connection refused")); try reflexivity.
  - discriminate.
  - split; [intros file; discriminate|]. by eexists.
Defined.

(** A saved session of a well-formed state is a snapshot. *)
Lemma wf_snapshot name saved s :
  wf s → saved_messages s name = Some saved → ∃ l, snapshot name l saved s.
Proof.
  intros [_ Hsaved]. unfold saved_messages, deref.
  destruct (chat_sessions s !! name) as [l|] eqn:Hl; [|done]. simpl. intros [= <-].
  destruct (Hsaved name l Hl) as [[xs Hxs]%elem_of_dom Hne].
  exists l. rewrite Hxs. simpl. by repeat split.
Qed.

(** A completed run of the chat interface: up to Save Chat it renders
    and appends only. *)
Lemma chat_ui_completed_steps out w s :
  fst (chat_ui out w s) = inr tt →
  ∃ s', rtc (chat_step false) s s'
        ∧ chat_ui out w s = (save_chat w;; load_chat w;; clear_chat w) s'.
Proof.
  intros Hdone. unfold chat_ui in *.
  apply bind_completed in Hdone as Hupload. destruct Hupload as ([] & _ & Hrun).
  rewrite Hrun in *. clear Hrun.
  pose proof (upload_and_list_moves false out w s) as Hs1.
  set (s1 := snd (upload_and_list out w s)) in *.
  apply bind_completed in Hdone as Hsend. destruct Hsend as ([] & _ & Hrun).
  rewrite Hrun in *. clear Hrun.
  pose proof (send_moves false out w s1) as Hs2.
  set (s2 := snd (send out w s1)) in *.
  exists (set_rendered (rendered s2 ++ [SidebarHeader "💾 Chat Sessions"]) s2).
  split; [|done].
  etrans; [exact Hs1|]. etrans; [exact Hs2|]. apply rtc_once, chat_render.
Qed.

(** X21.  While a saved session is selected in the select box, a
    completed run started by Send ends with the messages of that
    session as the current messages: the question and the answer that
    the run appended are gone. *)
Theorem selected_session_drops_sent_messages sha out w s saved :
  wf s → logged_in s = true → clicked w = Some SendButton →
  selected_session w ≠ EmptyString →
  saved_messages s (selected_session w) = Some saved →
  stop sha out w s = inr tt →
  current_messages (run sha out w s) = saved.
Proof.
  intros Hwf Hin Hclick Hsel Hsaved Hdone. unfold stop, run in *.
  rewrite (script_logged_in sha out w s Hin) in * by by eapply clicked_other.
  set (a := set_rendered _ s) in *.
  destruct (chat_ui_completed_steps out w a Hdone) as (s' & Hsteps & Hrun).
  rewrite Hrun. clear Hrun Hdone.
  destruct (wf_snapshot _ _ s Hwf Hsaved) as [l Hsnap].
  assert (snapshot (selected_session w) l saved s') as Hsnap'.
  { eapply steps_snapshot; [|exact Hsnap].
    transitivity a; [by apply rtc_once, step_session|].
    eapply rtc_subrel; [|exact Hsteps]. intros ? ?. apply step_chat. }
  assert (truthy (selected_session w) = true) as Htruthy
    by by apply negb_true_iff, String.eqb_neq.
  destruct (load_chat_snapshot w l saved s' Htruthy Hsnap') as (Hloaded & Hcur & _).
  unfold save_chat, clear_chat.
  rewrite (clicked_other w SendButton SaveChatButton Hclick) by done.
  rewrite (clicked_other w SendButton ClearChatButton Hclick) by done.
  unfold mbind, M_bind, bind, mret, M_ret, ret. simpl.
  destruct (load_chat w s') as [[e|[]] s'']; simpl in *; done.
Qed.

Lemma selected_session_drops_sent_messages_witness :
  current_messages
    (run toy_hash online
       (mkWidgets Login EmptyString EmptyString (Some SendButton) None "more" "Session 1")
       (run toy_hash online (click SaveChatButton) ann_chatting))
  = current_messages ann_chatting.
Proof.
  apply (selected_session_drops_sent_messages toy_hash online
           (mkWidgets Login EmptyString EmptyString (Some SendButton) None "more" "Session 1")
           (run toy_hash online (click SaveChatButton) ann_chatting)).
  - apply run_wf, run_wf, run_wf, new_session_wf.
  - reflexivity.
  - reflexivity.
  - discriminate.
  - reflexivity.
  - reflexivity.
Defined.

Lemma clear_chat_effect w s :
  is_clicked w ClearChatButton = true →
  fst (clear_chat w s) = inr tt ∧ current_messages (snd (clear_chat w s)) = [].
Proof.
  intros Hclick. unfold clear_chat. rewrite Hclick. unfold_script.
  unfold current_messages, deref. simpl. by rewrite lookup_insert_eq.
Qed.

(** X22.  A completed run started by Clear Chat ends with no current
    messages, also when a saved session is selected: the clearing comes
    after the loading. *)
Theorem clear_chat_empties sha out w s :
  logged_in s = true → clicked w = Some ClearChatButton →
  stop sha out w s = inr tt →
  current_messages (run sha out w s) = [].
Proof.
  intros Hin Hclick Hdone. unfold stop, run in *.
  rewrite (script_logged_in sha out w s Hin) in * by by eapply clicked_other.
  set (a := set_rendered _ s) in *.
  destruct (chat_ui_completed_steps out w a Hdone) as (s' & _ & Hrun).
  rewrite Hrun in *. clear Hrun.
  apply bind_completed in Hdone as Hsave. destruct Hsave as ([] & _ & Hrun).
  rewrite Hrun in *. clear Hrun.
  apply bind_completed in Hdone as ([] & _ & ->).
  by apply clear_chat_effect, clicked_is_clicked.
Qed.

Lemma clear_chat_empties_witness :
  current_messages
    (run toy_hash online
       (mkWidgets Login EmptyString EmptyString (Some ClearChatButton) None EmptyString
          "Session 1")
       (run toy_hash online (click SaveChatButton) ann_chatting))
  = [].
Proof.
  apply (clear_chat_empties toy_hash online
           (mkWidgets Login EmptyString EmptyString (Some ClearChatButton) None
              EmptyString "Session 1")
           (run toy_hash online (click SaveChatButton) ann_chatting)); reflexivity.
Defined.

(** *** The client and the backend *)

(** X23.  What line 116 of the client makes of the answer of GET
    /search/, for both definitions of the handler.  With the first
    definition the bot message is the value under the key result of
    what the chain returned, when the chain and the similarity search
    raise nothing and that key is there; with the second it is what
    [qa_chain.run] returned, when the retriever and the chain raise
    nothing.  In every other case the handler answers 500 and the bot
    message is the fixed error text: the error text of the backend is
    not shown. *)
Theorem chat_shows_answer_or_fixed_error svc query w :
  (∃ r,
     Backend.search_query_invoke svc query w = (inr r, w)
     ∧ answer_of r
       = match Backend.qa_invoke svc (Backend.vector_db w) query with
         | inl _ => "❌ Error fetching response"
         | inr result =>
             match Backend.similarity_search svc (Backend.vector_db w) query with
             | inl _ => "❌ Error fetching response"
             | inr _ =>
                 match Backend.dict_getitem "result" result with
                 | inl _ => "❌ Error fetching response"
                 | inr answer => answer
                 end
             end
         end)
  ∧ (∃ r,
       Backend.search_query_run svc query w = (inr r, w)
       ∧ answer_of r
         = match Backend.get_relevant_documents svc (Backend.vector_db w) query with
           | inl _ => "❌ Error fetching response"
           | inr _ =>
               match Backend.qa_run svc (Backend.vector_db w) query with
               | inl _ => "❌ Error fetching response"
               | inr answer => answer
               end
           end).
Proof.
  split.
  - unfold Backend.search_query_invoke, Backend.search_invoke_body.
    unfold mbind, M_bind, mret, M_ret, bind, try_except, lift, get_state, raise, ret.
    destruct (Backend.qa_invoke svc _ query) as [e|result]; [by eexists|].
    destruct (Backend.similarity_search svc _ query) as [e|docs]; [by eexists|].
    destruct (Backend.dict_getitem "result" result) as [e|answer]; by eexists.
  - unfold Backend.search_query_run, Backend.search_run_body.
    unfold mbind, M_bind, mret, M_ret, bind, try_except, lift, get_state, raise, ret.
    destruct (Backend.get_relevant_documents svc _ query) as [e|docs]; [by eexists|].
    destruct (Backend.qa_run svc _ query) as [e|answer]; by eexists.
Qed.

(** *** Access *)

Lemma authentication_ext sha out out' w s :
  users_json_error out' = users_json_error out →
  authentication sha out' w s = authentication sha out w s.
Proof.
  intros Hdisk. unfold authentication, sign_up, save_users. by rewrite Hdisk.
Qed.

Lemma script_unfold sha out w s :
  script sha out w s
  = match authentication sha out w (set_rendered [] s) with
    | (inl e, s1) => (inl e, s1)
    | (inr _, s1) =>
        if logged_in s1 then chat_ui out w s1 else render please_log_in s1
    end.
Proof.
  unfold script. unfold mbind, M_bind, bind, modify, get_state.
  destruct (authentication sha out w (set_rendered [] s)) as [[e|[]] s1]; [done|].
  by destruct (logged_in s1).
Qed.

(** X24.  A run that ends with nobody logged in made no request to the
    backend: it is the same run, with the same end, whatever the three
    HTTP calls would have answered. *)
Theorem logged_out_run_ignores_backend sha out out' w s :
  users_json_error out' = users_json_error out →
  logged_in (run sha out w s) = false →
  script sha out' w s = script sha out w s.
Proof.
  intros Hdisk Hout. destruct (logged_in s) eqn:Hin.
  - destruct (is_clicked w LogoutButton) eqn:Hclick.
    + apply is_clicked_true in Hclick.
      by rewrite !(script_logout sha _ w s Hin Hclick).
    + exfalso. unfold run in Hout.
      rewrite (script_logged_in sha out w s Hin Hclick) in Hout.
      set (a := set_rendered _ s) in Hout.
      pose proof (chat_steps_same_session true a _ (chat_ui_moves out w a))
        as (Hl & _).
      rewrite Hl in Hout. simpl in Hout. congruence.
  - unfold run in Hout. rewrite !script_unfold in *.
    rewrite (authentication_ext sha out out' w _ Hdisk).
    destruct (authentication sha out w (set_rendered [] s)) as [[e|[]] s1]; [done|].
    destruct (logged_in s1) eqn:Hin1; [|done].
    exfalso.
    pose proof (chat_steps_same_session true s1 _ (chat_ui_moves out w s1))
      as (Hl & _).
    rewrite Hl in Hout. congruence.
Qed.

Lemma logged_out_run_ignores_backend_witness :
  script toy_hash search_down (log_in "ann" "guess") registered
  = script toy_hash online (log_in "ann" "guess") registered.
Proof.
  apply (logged_out_run_ignores_backend toy_hash online search_down
           (log_in "ann" "guess") registered); reflexivity.
Defined.

End FrontendProofs.
